(** * Financial-data notebook: merging, symbol extraction and per-ticker charts

    A shallow embedding of the data-shaping code of the notebook
    (the cells that download the price tables, join them into one wide
    table, recover the ticker symbols from the column names and hand each
    ticker's OHLC slice to the plotting library), with the properties of
    the written specification stated and settled against it.

    pandas, yfinance and mplfinance are libraries the notebook calls; what
    the notebook relies on is written out here operation by operation
    ([getitem_level0], [join_outer], [dropna], [tail], ...).  Dates are
    integers, cells are binary64 floats and NaN is the missing-value
    marker, as in pandas. *)

From Stdlib Require Import ZArith String Ascii List Lia DecimalString.
From Stdlib Require Import Floats.PrimFloat.
From stdpp Require Import base list strings gmap sorting.

#[local] Set Warnings "-clear-no-such-hyp".

(** ** Python strings *)

Module Py.

(** [s.startswith(p)] *)
Fixpoint startswith (p s : string) : bool :=
  match p, s with
  | EmptyString, _ => true
  | String _ _, EmptyString => false
  | String a p', String b s' => Ascii.eqb a b && startswith p' s'
  end.

(** [s.endswith(p)]: [p] is [s], or ends what follows the first
    character of [s]. *)
Fixpoint endswith (p s : string) : bool :=
  String.eqb p s
  || match s with
     | EmptyString => false
     | String _ s' => endswith p s'
     end.

(** [c in s] for a one-character string [c]. *)
Fixpoint contains (c : ascii) (s : string) : bool :=
  match s with
  | EmptyString => false
  | String a s' => Ascii.eqb a c || contains c s'
  end.

(** [s.split(sep)] for a separator of one character: every occurrence
    of the separator cuts, empty pieces are kept, and the result is
    never the empty list. *)
Fixpoint split (sep : ascii) (s : string) : list string :=
  match s with
  | EmptyString => [EmptyString]
  | String a s' =>
      if Ascii.eqb a sep then EmptyString :: split sep s'
      else match split sep s' with
           | [] => [String a EmptyString]
           | w :: ws => String a w :: ws
           end
  end.

(** [l[-1]] on a list of strings ([split] never returns the empty list,
    on which Python raises [IndexError]). *)
Definition last_item (l : list string) : string := List.last l EmptyString.

Definition squote : ascii := ascii_of_nat 39.
Definition dquote : ascii := ascii_of_nat 34.
Definition backslash : ascii := ascii_of_nat 92.

Definition hex_digit (n : nat) : ascii :=
  if (n <? 10)%nat then ascii_of_nat (48 + n) else ascii_of_nat (87 + n).

(** The quote [repr] wraps a string in: the double quote when the
    string holds a single quote and no double quote, else the single
    quote. *)
Definition repr_quote (s : string) : ascii :=
  if contains squote s && negb (contains dquote s) then dquote else squote.

(** One character of the body of [repr(s)]. *)
Definition repr_char (q a : ascii) : string :=
  let n := nat_of_ascii a in
  if Ascii.eqb a backslash then String backslash (String backslash EmptyString)
  else if Ascii.eqb a q then String backslash (String q EmptyString)
  else if (n =? 10)%nat then String backslash "n"
  else if (n =? 13)%nat then String backslash "r"
  else if (n =? 9)%nat then String backslash "t"
  else if ((n <? 32) || (n =? 127))%nat then
    String backslash (String "x" (String (hex_digit (n / 16))
                                    (String (hex_digit (n mod 16)) EmptyString)))
  else String a EmptyString.

Fixpoint repr_body (q : ascii) (s : string) : string :=
  match s with
  | EmptyString => EmptyString
  | String a s' => repr_char q a +:+ repr_body q s'
  end.

(** [repr(s)] of a [str] (bytes above 127 stand for printable text and
    are kept). *)
Definition repr (s : string) : string :=
  let q := repr_quote s in
  String q (repr_body q s +:+ String q EmptyString).

(** [str(t)] of a tuple of two strings, as an f-string formats it. *)
Definition str_tuple (t : string * string) : string :=
  "(" +:+ repr t.1 +:+ ", " +:+ repr t.2 +:+ ")".

End Py.

(** ** Column names *)

(** The separator between the column label and the ticker. *)
Definition sep : ascii := "_"%char.

(** [f"{col}_{ticker}"], where [col] is a label of the downloaded table:
    a pair (price field, ticker), as the recorded column headers
    [('Open', '^GSPC')_^GSPC] show. *)
Definition column_name (col : string * string) (ticker : string) : string :=
  Py.str_tuple col +:+ String sep ticker.

(** [col.split("_")[-1]] *)
Definition ticker_of (col : string) : string :=
  Py.last_item (Py.split sep col).

(** [{col.split("_")[-1] for col in df.columns if col.startswith("(")}] *)
Definition extract_tickers (cols : list string) : gset string :=
  list_to_set (map ticker_of (List.filter (Py.startswith "(") cols)).

(** What a split at the first separator would return: everything after
    the first occurrence of the separator (the whole string when there is
    none). *)
Fixpoint after_first_sep (s : string) : string :=
  match s with
  | EmptyString => EmptyString
  | String a s' => if Ascii.eqb a sep then s' else after_first_sep s'
  end.


(** ** Tables *)

Definition Date := Z.

(** A cell is a binary64 float; NaN marks a missing value. *)
Definition cell := float.
Definition NaN : cell := nan.

(** A [DataFrame]: the column labels and, row by row, the index value
    (a date) with the cells of that row, one per column. *)
Record DataFrame (L : Type) := Frame {
  columns : list L;
  rows : list (Date * list cell)
}.
Arguments Frame {L} _ _.
Arguments columns {L} _.
Arguments rows {L} _.

Inductive exn :=
| KeyError (msg : string)
| ValueError (msg : string)
| Exception (msg : string).

(** [str(e)] *)
Definition str_exn (e : exn) : string :=
  match e with KeyError m | ValueError m | Exception m => m end.

Inductive result (A : Type) :=
| Ok (a : A)
| Raise (e : exn).
Arguments Ok {A} _.
Arguments Raise {A} _.

Module Pd.

(** [pd.DataFrame()] *)
Definition DataFrame0 {L} : DataFrame L := Frame [] [].

(** [df.index] *)
Definition index {L} (df : DataFrame L) : list Date := map fst (rows df).

(** [df.empty]: some axis has length zero. *)
Definition empty {L} (df : DataFrame L) : bool :=
  match columns df, rows df with
  | [], _ => true
  | _, [] => true
  | _ :: _, _ :: _ => false
  end.

(** [pd.isna(x)] *)
Definition isna (x : cell) : bool := is_nan x.

(** The items of [r] that stand under the columns satisfying [p]. *)
Fixpoint cells_where {L A} (p : L → bool) (cols : list L) (r : list A) : list A :=
  match cols, r with
  | c :: cols', x :: r' =>
      if p c then x :: cells_where p cols' r' else cells_where p cols' r'
  | _, _ => []
  end.

(** The table of the columns selected by each of [ps] in turn. *)
Definition take_columns {L} (ps : list (L → bool)) (df : DataFrame L) : DataFrame L :=
  {| columns := flat_map (λ p, cells_where p (columns df) (columns df)) ps;
     rows := map (λ dr, (dr.1, flat_map (λ p, cells_where p (columns df) dr.2) ps))
                 (rows df) |}.

(** [data[keys]] on two-level column labels: each key selects the
    columns whose first level is the key; a key that selects nothing
    raises [KeyError]. *)
Definition level0_is (k : string) (lbl : string * string) : bool :=
  String.eqb lbl.1 k.

Definition getitem_level0 (keys : list string) (data : DataFrame (string * string))
  : result (DataFrame (string * string)) :=
  match List.find (λ k, negb (existsb (level0_is k) (columns data))) keys with
  | Some k => Raise (KeyError k)
  | None => Ok (take_columns (map level0_is keys) data)
  end.

(** [df[names]] on plain column names: each name selects the columns
    of that name; a name that selects nothing raises [KeyError]. *)
Definition getitem (names : list string) (df : DataFrame string)
  : result (DataFrame string) :=
  match List.find (λ c, negb (existsb (String.eqb c) (columns df))) names with
  | Some c => Raise (KeyError c)
  | None => Ok (take_columns (map String.eqb names) df)
  end.

(** [df.columns = names]: the number of names must be the number of
    columns. *)
Definition set_columns {L L'} (names : list L') (df : DataFrame L)
  : result (DataFrame L') :=
  if Nat.eqb (length names) (length (columns df))
  then Ok {| columns := names; rows := rows df |}
  else Raise (ValueError "Length mismatch").

(** [df.dropna()]: the rows without a missing value. *)
Definition dropna {L} (df : DataFrame L) : DataFrame L :=
  {| columns := columns df;
     rows := List.filter (λ dr, forallb (λ x, negb (isna x)) dr.2) (rows df) |}.

(** [df.tail(n)]: the last [n] rows. *)
Definition tail {L} (n : nat) (df : DataFrame L) : DataFrame L :=
  {| columns := columns df;
     rows := drop (length (rows df) - n) (rows df) |}.

(** [df.loc[d]] as a list of cells, for the first row of index [d]. *)
Fixpoint loc (d : Date) (rs : list (Date * list cell)) : option (list cell) :=
  match rs with
  | [] => None
  | (d', r) :: rs' => if Z.eqb d' d then Some r else loc d rs'
  end.

(** The row of [df] at [d] after reindexing: its cells, or one NaN per
    column where [df] has no row of index [d]. *)
Definition row_or_nan {L} (df : DataFrame L) (d : Date) : list cell :=
  default (replicate (length (columns df)) NaN) (loc d (rows df)).

(** The index of an outer join: the union of the two indexes, sorted. *)
Definition index_union (a b : list Date) : list Date :=
  merge_sort Z.le (remove_dups (a ++ b)).

(** [left.join(right, how="outer")] for tables whose index values are
    unique and ascending, as those of the Series of the data model are:
    columns that both tables have raise [ValueError]; the result has the
    columns of [left] then those of [right], and one row per index value
    of the union, in ascending order, with NaN where a table has no
    row. *)
Definition join_outer (left right : DataFrame string) : result (DataFrame string) :=
  if existsb (λ c, existsb (String.eqb c) (columns right)) (columns left)
  then Raise (ValueError "columns overlap but no suffix specified")
  else Ok {| columns := columns left ++ columns right;
             rows := map (λ d, (d, row_or_nan left d ++ row_or_nan right d))
                         (index_union (index left) (index right)) |}.

End Pd.

(** ** The merge loop *)

Definition ohlc : list string := ["Open"; "High"; "Low"; "Close"].

(** The first two statements of the loop body: keep the four price
    columns and rename each with the ticker. *)
Definition ticker_frame (ticker : string) (data : DataFrame (string * string))
  : result (DataFrame string) :=
  match Pd.getitem_level0 ohlc data with
  | Raise e => Raise e
  | Ok data =>
      Ok {| columns := map (λ col, column_name col ticker) (columns data);
            rows := rows data |}
  end.

(** One iteration of [for ticker in tickers], on the table built so far
    (the progress message is left out).  [download ticker] is what
    [yf.download(ticker, start, end)] returned; yfinance reports a failed
    download by returning a table without rows (or without the price
    columns) rather than by raising. *)
Definition merge_step (download : string → DataFrame (string * string))
    (all_data : DataFrame string) (ticker : string) : result (DataFrame string) :=
  match ticker_frame ticker (download ticker) with
  | Raise e => Raise e
  | Ok data =>
      if Pd.empty all_data then Ok data else Pd.join_outer all_data data
  end.

Fixpoint merge_loop (download : string → DataFrame (string * string))
    (all_data : DataFrame string) (tickers : list string) : result (DataFrame string) :=
  match tickers with
  | [] => Ok all_data
  | ticker :: rest =>
      match merge_step download all_data ticker with
      | Raise e => Raise e
      | Ok all_data' => merge_loop download all_data' rest
      end
  end.

(** [all_data] after the loop, started from [pd.DataFrame()].  The
    statements that follow ([reset_index], [to_csv], and later [read_csv]
    and [set_index('Date')]) write the table to a file and read it back;
    that passage through text is not modelled here, and what is proved
    of the chart functions is about the table that [df] refers to. *)
Definition merge (download : string → DataFrame (string * string))
    (tickers : list string) : result (DataFrame string) :=
  merge_loop download Pd.DataFrame0 tickers.

(** The number of missing values of a table. *)
Definition count_missing {L} (df : DataFrame L) : nat :=
  list_sum (map (λ dr, length (List.filter Pd.isna dr.2)) (rows df)).

(** The cell of [df] at date [d] under the column named [c]. *)
Definition cell_at (df : DataFrame string) (d : Date) (c : string) : option cell :=
  match Pd.loc d (rows df) with
  | None => None
  | Some r => head (Pd.cells_where (String.eqb c) (columns df) r)
  end.

(** ** The interpreter's state and effects *)

(** What the chart functions do to the outside, in order. *)
Inductive event :=
| Printed (msg : string)
| ClearOutput
| MpfPlot (data : DataFrame string) (title : string) (savefig : option string)
| PltShow
| ShowTraceback (e : exn).

(** Tables are objects: a variable holds a reference into the heap, and
    an in-place method changes the object every reference sees. *)
Record world := World {
  heap : gmap nat (DataFrame string);
  log : list event
}.

#[global] Instance DataFrame_inhabited {L} : Inhabited (DataFrame L) :=
  populate (Frame [] []).

(** A statement runs in a world and ends normally or with a raised
    exception. *)
Definition M (A : Type) : Type := world → result A * world.

#[global] Instance M_ret : MRet M := λ A a w, (Ok a, w).

#[global] Instance M_bind : MBind M := λ A B f m w,
  match m w with
  | (Ok a, w') => f a w'
  | (Raise e, w') => (Raise e, w')
  end.

Definition raise {A} (e : exn) : M A := λ w, (Raise e, w).

Definition lift {A} (r : result A) : M A := λ w, (r, w).

(** [try: body except Exception as e: handler(e)]; an [exn] stands for
    an instance of a subclass of [Exception], which the clause catches. *)
Definition try_except {A} (body : M A) (handler : exn → M A) : M A := λ w,
  match body w with
  | (Raise e, w') => handler e w'
  | r => r
  end.

Definition emit (e : event) : M unit := λ w,
  (Ok tt, {| heap := heap w; log := log w ++ [e] |}).

Definition print (msg : string) : M unit := emit (Printed msg).

(** A new object, at an address no object has. *)
Definition new (df : DataFrame string) : M nat := λ w,
  let l := fresh (dom (heap w)) in
  (Ok l, {| heap := <[l := df]> (heap w); log := log w |}).

Definition deref (l : nat) : M (DataFrame string) := λ w, (Ok (heap w !!! l), w).

Definition assign (l : nat) (df : DataFrame string) : M unit := λ w,
  (Ok tt, {| heap := <[l := df]> (heap w); log := log w |}).

(** [df[names]]: a new table; selecting with a list of names copies, as
    the recorded [SettingWithCopyWarning] of the notebook says. *)
Definition getitem (df : nat) (names : list string) : M nat :=
  d ← deref df; r ← lift (Pd.getitem names d); new r.

(** [df.copy()] *)
Definition copy (df : nat) : M nat :=
  d ← deref df; new d.

(** [df.columns = names], in place. *)
Definition set_columns (df : nat) (names : list string) : M unit :=
  d ← deref df; r ← lift (Pd.set_columns names d); assign df r.

(** [df.dropna(inplace=True)] *)
Definition dropna_inplace (df : nat) : M unit :=
  d ← deref df; assign df (Pd.dropna d).

(** [df.tail(n)]: a new table. *)
Definition tail (df : nat) (n : nat) : M nat :=
  d ← deref df; new (Pd.tail n d).

(** [df.empty] *)
Definition is_empty (df : nat) : M bool :=
  d ← deref df; mret (Pd.empty d).

Fixpoint for_each {A} (body : A → M unit) (l : list A) : M unit :=
  match l with
  | [] => mret tt
  | x :: l' => body x ;; for_each body l'
  end.

(** [str(n)] of a natural number. *)
Definition str_nat (n : nat) : string :=
  DecimalString.NilEmpty.string_of_uint (Nat.to_uint n).

(** ** The chart functions *)

Definition charts_dir : string := "charts/candlestick".

(** The columns the chart functions select for a ticker. *)
Definition ticker_columns (d : DataFrame string) (ticker : string) : list string :=
  List.filter (Py.endswith (String sep ticker)) (columns d).

(** The table a chart is drawn from, as the three statements that
    select, rename and clean compute it from the table [d] that [df]
    refers to; [names] is what the columns are renamed to. *)
Definition project_as (names : list string) (d : DataFrame string) (ticker : string)
  : result (DataFrame string) :=
  match Pd.getitem (ticker_columns d ticker) d with
  | Raise e => Raise e
  | Ok sel =>
      match Pd.set_columns names sel with
      | Raise e => Raise e
      | Ok ticker_data => Ok (Pd.dropna ticker_data)
      end
  end.

(** In [generate_candlestick_charts]. *)
Definition project (d : DataFrame string) (ticker : string) : result (DataFrame string) :=
  project_as ohlc d ticker.

(** In [update_chart], past the guard on the number of columns. *)
Definition project_selected (d : DataFrame string) (ticker : string)
  : result (DataFrame string) :=
  project_as (take (length (ticker_columns d ticker)) ohlc) d ticker.

(** The rows of [d] that are complete for a ticker: no cell under a
    column of the ticker is missing. *)
Definition complete_rows (d : DataFrame string) (ticker : string)
  : list (Date * list cell) :=
  List.filter
    (λ dr, forallb (λ x, negb (Pd.isna x))
             (Pd.cells_where (Py.endswith (String sep ticker)) (columns d) dr.2))
    (rows d).

(** The rows handed to the plot: the complete rows of the ticker, cut
    down to the ticker's columns. *)
Definition ticker_rows (d : DataFrame string) (ticker : string)
  : list (Date * list cell) :=
  map (λ dr, (dr.1, Pd.cells_where (Py.endswith (String sep ticker)) (columns d) dr.2))
      (complete_rows d ticker).

(** The largest date of a list of dates. *)
Definition max_date (ds : list Date) : option Date :=
  foldr (λ d acc, Some (match acc with Some m => Z.max d m | None => d end)) None ds.

Section Charts.

(** The plotting library and the operating system: [mpf_plot] and
    [plt_show] say whether the call raises, and with what. *)
Variable mpf_plot : DataFrame string → string → option string → option exn.
Variable plt_show : DataFrame string → option exn.
Variable os_path_join : string → string → string.

(** Whether the code runs in an IPython kernel, as the cells of a
    notebook do: [get_ipython()] is not [None]. *)
Variable in_kernel : bool.

(** [with output: body] for the [Output] widget.  What [body] prints
    goes to the widget.  When [body] raises, [Output.__exit__] shows the
    traceback and suppresses the exception in a kernel; elsewhere the
    exception goes on. *)
Definition with_output (body : M unit) : M unit := λ w,
  match body w with
  | (Raise e, w') =>
      if in_kernel then emit (ShowTraceback e) w' else (Raise e, w')
  | r => r
  end.

(** [mpf.plot(ticker_data, type='candle', style='yahoo', title=...,
    savefig=...)] *)
Definition plot (ticker_data : nat) (title : string) (savefig : option string)
  : M unit :=
  d ← deref ticker_data;
  emit (MpfPlot d title savefig) ;;
  match mpf_plot d title savefig with
  | Some e => raise e
  | None => mret tt
  end.

(** [plt.show()] of the figure just drawn from [ticker_data]. *)
Definition show (ticker_data : nat) : M unit :=
  d ← deref ticker_data;
  emit PltShow ;;
  match plt_show d with
  | Some e => raise e
  | None => mret tt
  end.

(** The body of [for ticker in tickers] in
    [generate_candlestick_charts]; [max_rows] is the argument of
    [tail], 500 in the notebook. *)
Definition chart_ticker (max_rows : nat) (df : nat) (ticker : string) : M unit :=
  print ("Creating chart for " +:+ ticker +:+ "...") ;;
  d ← deref df;
  let columns := List.filter (Py.endswith (String sep ticker)) (columns d) in
  ticker_data ← getitem df columns;
  set_columns ticker_data ohlc ;;
  dropna_inplace ticker_data ;;
  e ← is_empty ticker_data;
  if e : bool then
    print ("No valid data available for " +:+ ticker +:+ ", skipping...")
  else
    ticker_data ← tail ticker_data max_rows;
    try_except
      (let chart_path := os_path_join charts_dir (ticker +:+ ".png") in
       plot ticker_data ("Candlestick Chart: " +:+ ticker) (Some chart_path) ;;
       print ("Candlestick chart saved: " +:+ chart_path))
      (λ e, print ("Failed to generate candlestick chart for " +:+ ticker
                   +:+ ": " +:+ str_exn e)).

Definition generate_candlestick_charts_with (max_rows : nat)
    (df : nat) (tickers : list string) : M unit :=
  print ("Generating charts for " +:+ str_nat (length tickers) +:+ " tickers...") ;;
  for_each (chart_ticker max_rows df) tickers.

Definition generate_candlestick_charts : nat → list string → M unit :=
  generate_candlestick_charts_with 500.

(** [update_chart(change)] of the dropdown, with
    [selected_ticker = change['new']]; [df] is the global table. *)
Definition update_chart (df : nat) (selected_ticker : string) : M unit :=
  emit ClearOutput ;;
  with_output
    (print ("Generating chart for " +:+ selected_ticker +:+ "...") ;;
     d ← deref df;
     let columns := List.filter (Py.endswith (String sep selected_ticker)) (columns d) in
     if (length columns <? 4)%nat then
       print ("Insufficient data for " +:+ selected_ticker
              +:+ ". Required columns: Open, High, Low, Close.")
     else
       sliced ← getitem df columns;
       ticker_data ← copy sliced;
       set_columns ticker_data (take (length columns) ohlc) ;;
       dropna_inplace ticker_data ;;
       e ← is_empty ticker_data;
       if negb e then
         try_except
           (plot ticker_data ("Candlestick Chart: " +:+ selected_ticker) None ;;
            show ticker_data)
           (λ e, print ("Error plotting chart for " +:+ selected_ticker
                        +:+ ": " +:+ str_exn e))
       else
         print ("No valid data available for " +:+ selected_ticker +:+ ".")).

(** What one iteration of [generate_candlestick_charts] prints and
    plots, when [df] refers to the table [d]. *)
Definition chart_events (max_rows : nat) (d : DataFrame string) (ticker : string)
  : list event :=
  Printed ("Creating chart for " +:+ ticker +:+ "...") ::
  match project d ticker with
  | Raise _ => []
  | Ok clean =>
      if Pd.empty clean then
        [Printed ("No valid data available for " +:+ ticker +:+ ", skipping...")]
      else
        let chart_path := os_path_join charts_dir (ticker +:+ ".png") in
        let title := "Candlestick Chart: " +:+ ticker in
        [MpfPlot (Pd.tail max_rows clean) title (Some chart_path);
         match mpf_plot (Pd.tail max_rows clean) title (Some chart_path) with
         | Some e => Printed ("Failed to generate candlestick chart for "
                              +:+ ticker +:+ ": " +:+ str_exn e)
         | None => Printed ("Candlestick chart saved: " +:+ chart_path)
         end]
  end.

(** How one iteration ends. *)
Definition chart_result (d : DataFrame string) (ticker : string) : result unit :=
  match project d ticker with
  | Raise e => Raise e
  | Ok _ => Ok tt
  end.

(** The iterations in turn, until one raises. *)
Fixpoint batch_events (max_rows : nat) (d : DataFrame string) (tickers : list string)
  : list event :=
  match tickers with
  | [] => []
  | ticker :: rest =>
      chart_events max_rows d ticker ++
      match chart_result d ticker with
      | Ok _ => batch_events max_rows d rest
      | Raise _ => []
      end
  end.

Fixpoint batch_result (d : DataFrame string) (tickers : list string) : result unit :=
  match tickers with
  | [] => Ok tt
  | ticker :: rest =>
      match chart_result d ticker with
      | Ok _ => batch_result d rest
      | Raise e => Raise e
      end
  end.

(** What [update_chart] prints, plots and shows, and how it ends. *)
Definition update_events (d : DataFrame string) (ticker : string) : list event :=
  ClearOutput ::
  Printed ("Generating chart for " +:+ ticker +:+ "...") ::
  if (length (ticker_columns d ticker) <? 4)%nat then
    [Printed ("Insufficient data for " +:+ ticker
              +:+ ". Required columns: Open, High, Low, Close.")]
  else
    match project_selected d ticker with
    | Raise e => if in_kernel then [ShowTraceback e] else []
    | Ok clean =>
        if Pd.empty clean then
          [Printed ("No valid data available for " +:+ ticker +:+ ".")]
        else
          let title := "Candlestick Chart: " +:+ ticker in
          let failed e := Printed ("Error plotting chart for " +:+ ticker
                                   +:+ ": " +:+ str_exn e) in
          MpfPlot clean title None ::
          match mpf_plot clean title None with
          | Some e => [failed e]
          | None =>
              PltShow ::
              match plt_show clean with
              | Some e => [failed e]
              | None => []
              end
          end
    end.

Definition update_result (d : DataFrame string) (ticker : string) : result unit :=
  if (length (ticker_columns d ticker) <? 4)%nat then Ok tt
  else match project_selected d ticker with
       | Raise e => if in_kernel then Ok tt else Raise e
       | Ok _ => Ok tt
       end.

End Charts.

(** ** The data model of the merge *)

(** The four price columns of a downloaded table. *)
Definition prices (data : DataFrame (string * string)) : DataFrame (string * string) :=
  Pd.take_columns (map Pd.level0_is ohlc) data.

(** A Series of the data model, as the download hands it over: a
    rectangular table in which each of Open, High, Low and Close selects
    one column, labelled with the ticker, and whose dates are strictly
    ascending (ordered, each date once).  It may have no rows. *)
Definition Series (ticker : string) (data : DataFrame (string * string)) : Prop :=
  Forall (λ dr, length dr.2 = length (columns data)) (rows data) ∧
  Pd.getitem_level0 ohlc data = Ok (prices data) ∧
  columns (prices data) = map (λ field, (field, ticker)) ohlc ∧
  StronglySorted Z.lt (Pd.index data).

(** Every price of the Series is a number. *)
Definition numeric (data : DataFrame (string * string)) : Prop :=
  Forall (λ dr, forallb (λ x, negb (Pd.isna x)) dr.2 = true) (rows (prices data)).

(** The dates a Series covers, and the union over the tickers. *)
Definition dates (data : DataFrame (string * string)) : gset Z :=
  list_to_set (Pd.index data).

Definition all_dates (download : string → DataFrame (string * string))
    (tickers : list string) : gset Z :=
  ⋃ (map (λ t, dates (download t)) tickers).

(** The table the loop body joins for a ticker whose download is a
    Series. *)
Definition prepared (download : string → DataFrame (string * string))
    (ticker : string) : DataFrame string :=
  {| columns := map (λ field, column_name (field, ticker) ticker) ohlc;
     rows := rows (prices (download ticker)) |}.

(** The loop on the prepared tables. *)
Fixpoint merge_frames (all_data : DataFrame string) (fs : list (DataFrame string))
  : result (DataFrame string) :=
  match fs with
  | [] => Ok all_data
  | data :: rest =>
      match (if Pd.empty all_data then Ok data else Pd.join_outer all_data data) with
      | Raise e => Raise e
      | Ok all_data' => merge_frames all_data' rest
      end
  end.

(** The wide table of the specification: the columns of every table in
    turn, one row per date of the union, ascending, NaN where a table has
    no row for the date. *)
Definition date_union (fs : list (DataFrame string)) : list Date :=
  merge_sort Z.le (remove_dups (flat_map Pd.index fs)).

Definition wide (fs : list (DataFrame string)) : DataFrame string :=
  {| columns := flat_map columns fs;
     rows := map (λ d, (d, flat_map (λ f, Pd.row_or_nan f d) fs)) (date_union fs) |}.

(** A table [acc] stands for the tables [pre] joined so far: it has
    their columns in turn, their cells at every date, and their dates. *)
Definition stands_for (acc : DataFrame string) (pre : list (DataFrame string)) : Prop :=
  columns acc = flat_map columns pre ∧
  (∀ d, Pd.row_or_nan acc d = flat_map (λ f, Pd.row_or_nan f d) pre) ∧
  (∀ d, d ∈ Pd.index acc ↔ d ∈ flat_map Pd.index pre).

(** ** Example data *)

(** A download as yfinance lays it out (the price columns come in
    another order than the notebook selects them, with the volume). *)
Definition yf_table (ticker : string) (rs : list (Date * list cell))
  : DataFrame (string * string) :=
  Frame [("Close", ticker); ("High", ticker); ("Low", ticker);
         ("Open", ticker); ("Volume", ticker)] rs.

Definition flat_row (d : Z) (v : float) : Date * list cell :=
  (d, [v; v; v; v; 1000%float]).

(** The scenario of the specification: AAA on dates 1 to 3 at 10, BBB on
    dates 2 to 4 at 20; any other ticker comes back without rows. *)
Definition scenario (ticker : string) : DataFrame (string * string) :=
  if String.eqb ticker "AAA" then
    yf_table ticker [flat_row 1 10; flat_row 2 10; flat_row 3 10]
  else if String.eqb ticker "BBB" then
    yf_table ticker [flat_row 2 20; flat_row 3 20; flat_row 4 20]
  else yf_table ticker [].

(** Two tickers on disjoint dates, and one without rows. *)
Definition apart (ticker : string) : DataFrame (string * string) :=
  if String.eqb ticker "AAA" then yf_table ticker [flat_row 1 10; flat_row 2 10]
  else if String.eqb ticker "BBB" then yf_table ticker [flat_row 5 20; flat_row 6 20]
  else yf_table ticker [].

(** A download that failed altogether for CCC: [pd.DataFrame()]. *)
Definition absent (ticker : string) : DataFrame (string * string) :=
  if String.eqb ticker "CCC" then Pd.DataFrame0 else scenario ticker.

(** The wide table of the scenario, loaded as [df], before any chart. *)
Definition scenario_table : DataFrame string :=
  match merge scenario ["AAA"; "CCC"; "BBB"] with
  | Ok wt => wt
  | Raise _ => Pd.DataFrame0
  end.

Definition scenario_world : world :=
  {| heap := {[ 0%nat := scenario_table ]}; log := [] |}.

(** A table in which the ticker XXX has lost its Close column. *)
Definition partial_table : DataFrame string :=
  {| columns := map (λ field, column_name (field, "XXX") "XXX") ["Open"; "High"; "Low"]
                ++ map (λ field, column_name (field, "AAA") "AAA") ohlc;
     rows := [(1%Z, [1; 2; 3; 10; 10; 10; 10]%float);
              (2%Z, [1; 2; 3; 10; 10; 10; 10]%float)] |}.

Definition partial_world : world :=
  {| heap := {[ 0%nat := partial_table ]}; log := [] |}.

(** The OHLC table of AAA in the scenario. *)
Definition aaa_table : DataFrame string :=
  {| columns := ohlc;
     rows := [(1%Z, [10; 10; 10; 10]%float); (2%Z, [10; 10; 10; 10]%float);
              (3%Z, [10; 10; 10; 10]%float)] |}.

(** The calls of [mpf.plot] in a log. *)
Definition plot_calls (evs : list event) : list event :=
  List.filter (λ ev, match ev with MpfPlot _ _ _ => true | _ => false end) evs.

(** Plotting libraries that never fail, and that always fail. *)
Definition plot_fine : DataFrame string → string → option string → option exn :=
  λ _ _ _, None.
Definition show_fine : DataFrame string → option exn := λ _, None.
Definition plot_down : DataFrame string → string → option string → option exn :=
  λ _ _ _, Some (Exception "no display").
Definition posix_join (a b : string) : string := a +:+ "/" +:+ b.

(** Two tickers of which one ends in the separator and the other: the
    columns of B_A also end in _A. *)
Definition clash (ticker : string) : DataFrame (string * string) :=
  if String.eqb ticker "A" then yf_table ticker [flat_row 1 10; flat_row 2 10]
  else if String.eqb ticker "B_A" then yf_table ticker [flat_row 1 20; flat_row 2 20]
  else yf_table ticker [].

Definition clash_table : DataFrame string :=
  match merge clash ["A"; "B_A"] with
  | Ok wt => wt
  | Raise _ => Pd.DataFrame0
  end.

Definition clash_world : world :=
  {| heap := {[ 0%nat := clash_table ]}; log := [] |}.

(** * Properties *)

(** ** Strings and column names *)

Example column_name_recorded :
  column_name ("Open", "^GSPC") "^GSPC" = "('Open', '^GSPC')_^GSPC".
Proof. reflexivity. Qed.

Section StringFacts.

#[local] Arguments String.append !_ _ / : simpl nomatch.

Lemma append_assoc (a b c : string) : (a +:+ b) +:+ c = a +:+ (b +:+ c).
Proof. induction a as [|x a IH]; simpl; [done | by f_equal]. Qed.

Lemma append_empty_r (a : string) : a +:+ "" = a.
Proof. induction a as [|x a IH]; simpl; [done | by f_equal]. Qed.

Lemma length_append (a b : string) :
String.length (a +:+ b) = (String.length a + String.length b)%nat.
Proof. induction a as [|x a IH]; simpl; [done | by f_equal]. Qed.

Lemma split_not_nil c s : Py.split c s ≠ [].
Proof.
destruct s as [|a s]; simpl; [done |].
destruct (Ascii.eqb a c); [done |].
by destruct (Py.split c s).
Qed.

Lemma split_append c a t :
Py.split c (a +:+ String c t) = Py.split c a ++ Py.split c t.
Proof.
induction a as [|x a IH]; simpl.
- by rewrite Ascii.eqb_refl.
- destruct (Ascii.eqb x c); [by rewrite IH |].
  rewrite IH. destruct (Py.split c a) as [|w ws] eqn:E; [|done].
  by apply split_not_nil in E.
Qed.

Lemma split_no_sep c t : Py.contains c t = false → Py.split c t = [t].
Proof.
induction t as [|x t IH]; simpl; [done |].
intros [Hx Ht]%orb_false_iff. rewrite Hx, (IH Ht). done.
Qed.

Lemma last_app_not_nil {A} (l1 l2 : list A) d :
l2 ≠ [] → List.last (l1 ++ l2) d = List.last l2 d.
Proof.
intros H. induction l1 as [|x l1 IH]; [done |].
simpl. destruct (l1 ++ l2) eqn:E; [|done].
apply app_eq_nil in E as [_ ?]. done.
Qed.

(** The extractor sees only what follows the last separator, so the
  label in front of the ticker never matters. *)
Lemma ticker_of_append a t : ticker_of (a +:+ String sep t) = ticker_of t.
Proof.
unfold ticker_of, Py.last_item. rewrite split_append.
apply last_app_not_nil, split_not_nil.
Qed.

Lemma ticker_of_no_sep t : Py.contains sep t = false → ticker_of t = t.
Proof. intros H. unfold ticker_of. by rewrite split_no_sep. Qed.

(** The extracted text holds no separator, and is what is left of the
  string after a prefix that is empty or ends in a separator. *)
Lemma ticker_of_suffix t :
Py.contains sep (ticker_of t) = false ∧
∃ pre, t = pre +:+ ticker_of t ∧ (pre = "" ∨ ∃ p, pre = p +:+ String sep "").
Proof.
induction t as [|x t [IH1 (pre & IH2 & IH3)]].
- split; [done |]. exists "". auto.
- destruct (Ascii.eqb x sep) eqn:Ex.
  + apply Ascii.eqb_eq in Ex as ->.
    change (String sep t) with ("" +:+ String sep t).
    rewrite ticker_of_append. split; [done |].
    exists (String sep pre). split; [simpl; by rewrite <- IH2 |].
    right. destruct IH3 as [-> | [p ->]]; [by exists "" |].
    by exists (String sep p).
  + destruct (Py.contains sep t) eqn:Ht.
    * assert (pre ≠ "") as Hpre.
      { intros ->. simpl in IH2. rewrite <- IH2 in IH1. congruence. }
      destruct IH3 as [-> | [p ->]]; [done |].
      assert (ticker_of (String x t) = ticker_of t) as ->.
      { assert (String x t = String x p +:+ String sep (ticker_of t)) as Ht'.
        { rewrite append_assoc in IH2. simpl in *. by f_equal. }
        rewrite Ht', ticker_of_append. by apply ticker_of_no_sep. }
      split; [done |]. exists (String x (p +:+ String sep "")).
      split; [simpl; by rewrite <- IH2 | right; by exists (String x p)].
    * rewrite ticker_of_no_sep by (simpl; by rewrite Ex, Ht).
      split; [simpl; by rewrite Ex, Ht |]. exists "". auto.
Qed.

End StringFacts.

(** C1 (as the code has it): for every encoded column name, the
    extractor returns what follows the LAST separator of the name.  That
    is the last separator-free piece of the ticker: the ticker is a
    prefix, empty or ending in a separator, followed by the extracted
    text; so the whole ticker comes back exactly when it holds no
    separator. *)
Theorem ticker_of_column_name (col : string * string) (ticker : string) :
  ticker_of (column_name col ticker) = ticker_of ticker ∧
  Py.contains sep (ticker_of (column_name col ticker)) = false ∧
  (∃ pre, ticker = pre +:+ ticker_of (column_name col ticker) ∧
          (pre = "" ∨ ∃ p, pre = p +:+ String sep "")) ∧
  (ticker_of (column_name col ticker) = ticker ↔ Py.contains sep ticker = false).
Proof.
  unfold column_name. rewrite ticker_of_append.
  destruct (ticker_of_suffix ticker) as [H1 H2].
  repeat split; try done.
  - intros E. by rewrite E in H1.
  - apply ticker_of_no_sep.
Qed.

(** C1, counterexample: the ticker BRK_B holds the separator; from its
    Open column the extractor returns B, which is neither the ticker nor
    what follows the first separator of the column name. *)
Lemma ticker_of_not_first_split :
  ∃ ticker : string,
    Py.contains sep ticker = true ∧
    column_name ("Open", ticker) ticker = "('Open', 'BRK_B')_BRK_B" ∧
    ticker_of (column_name ("Open", ticker) ticker) = "B" ∧
    ticker_of (column_name ("Open", ticker) ticker) ≠ ticker ∧
    ticker_of (column_name ("Open", ticker) ticker)
      ≠ after_first_sep (column_name ("Open", ticker) ticker).
Proof. exists "BRK_B". repeat split; done. Qed.

(** ** The merge loop *)

#[local] Arguments column_name : simpl never.

Lemma cells_where_length {L A B} (p : L → bool) cols (r : list A) (r' : list B) :
  length r = length r' →
  length (Pd.cells_where p cols r) = length (Pd.cells_where p cols r').
Proof.
  revert r r'. induction cols as [|c cols IH]; intros [|x r] [|x' r'] E;
    simpl in *; try done.
  injection E as E. destruct (p c); simpl; auto.
Qed.

Lemma index_prices data : Pd.index (prices data) = Pd.index data.
Proof.
  unfold Pd.index, prices, Pd.take_columns. simpl.
  rewrite map_map. done.
Qed.

Lemma prices_width ticker data :
  Series ticker data → Forall (λ dr, length dr.2 = 4%nat) (rows (prices data)).
Proof.
  intros (Hrect & _ & Hcols & _).
  apply (f_equal length) in Hcols. simpl in Hcols.
  unfold prices, Pd.take_columns in *. simpl in *.
  apply Forall_map. eapply Forall_impl; [exact Hrect |].
  intros [d r] Hr. simpl in *. rewrite <- Hcols.
  rewrite !length_app.
  by rewrite !(cells_where_length _ _ r (columns data)) by done.
Qed.

Lemma ticker_frame_Series download t :
  Series t (download t) → ticker_frame t (download t) = Ok (prepared download t).
Proof.
  intros (_ & Hget & Hcols & _). unfold ticker_frame, prepared.
  rewrite Hget, Hcols. by rewrite map_map.
Qed.

Lemma merge_loop_frames download tickers : ∀ all_data,
  (∀ t, t ∈ tickers → Series t (download t)) →
  merge_loop download all_data tickers
  = merge_frames all_data (map (prepared download) tickers).
Proof.
  induction tickers as [|t tickers IH]; intros acc H; [done |].
  simpl. unfold merge_step.
  rewrite ticker_frame_Series by (apply H; left).
  destruct (if Pd.empty acc then _ else _); [|done].
  apply IH. intros t' Ht'. apply H. by right.
Qed.

Lemma index_prepared download t : Pd.index (prepared download t) = Pd.index (download t).
Proof. apply index_prices. Qed.

Lemma loc_None d rs : d ∉ map fst rs → Pd.loc d rs = None.
Proof.
  induction rs as [|[d' r] rs IH]; simpl; [done |].
  intros H. apply not_elem_of_cons in H as [H1 H2].
  destruct (Z.eqb_spec d' d); [congruence | auto].
Qed.

Lemma loc_is_Some d rs : d ∈ map fst rs → is_Some (Pd.loc d rs).
Proof.
  induction rs as [|[d' r] rs IH]; simpl; [by intros ?%elem_of_nil |].
  intros H. destruct (Z.eqb_spec d' d); [eauto |].
  apply elem_of_cons in H as [? | ?]; [congruence | auto].
Qed.

Lemma loc_map (g : Date → list cell) ds d :
  Pd.loc d (map (λ d, (d, g d)) ds) = if decide (d ∈ ds) then Some (g d) else None.
Proof.
  induction ds as [|d' ds IH]; simpl.
  - done.
  - destruct (Z.eqb_spec d' d) as [-> | Hne].
    + rewrite decide_True; [done | left].
    + rewrite IH. repeat case_decide; try done.
      * exfalso. auto using list_elem_of_further.
      * exfalso. match goal with H : d ∈ _ :: _ |- _ =>
          apply elem_of_cons in H as [? | ?]; [congruence | done] end.
Qed.

Lemma sort_dedup_eq (l1 l2 : list Z) :
  (∀ x, x ∈ l1 ↔ x ∈ l2) →
  merge_sort Z.le (remove_dups l1) = merge_sort Z.le (remove_dups l2).
Proof.
  intros H. apply (StronglySorted_unique Z.le).
  - apply StronglySorted_merge_sort; apply _.
  - apply StronglySorted_merge_sort; apply _.
  - rewrite !merge_sort_Permutation.
    apply NoDup_Permutation; [apply NoDup_remove_dups .. |].
    intros x. by rewrite !elem_of_remove_dups.
Qed.

Lemma elem_of_date_union d fs :
  d ∈ date_union fs ↔ d ∈ flat_map Pd.index fs.
Proof.
  unfold date_union. by rewrite merge_sort_Permutation, elem_of_remove_dups.
Qed.

Lemma NoDup_date_union fs : NoDup (date_union fs).
Proof.
  unfold date_union. rewrite merge_sort_Permutation. apply NoDup_remove_dups.
Qed.

Lemma index_wide fs : Pd.index (wide fs) = date_union fs.
Proof.
  unfold Pd.index, wide. simpl. rewrite map_map. simpl. apply map_id.
Qed.

Lemma row_or_nan_absent {L} (f : DataFrame L) d :
  d ∉ Pd.index f → Pd.row_or_nan f d = replicate (length (columns f)) NaN.
Proof. intros H. unfold Pd.row_or_nan. by rewrite loc_None. Qed.

Lemma rows_absent (fs : list (DataFrame string)) d :
  d ∉ flat_map Pd.index fs →
  flat_map (λ f, Pd.row_or_nan f d) fs
  = replicate (length (flat_map columns fs)) NaN.
Proof.
  induction fs as [|f fs IH]; simpl; [done |].
  intros H. apply not_elem_of_app in H as [H1 H2].
  rewrite length_app, replicate_add, IH by done.
  by rewrite row_or_nan_absent.
Qed.

Lemma stands_for_wide pre : stands_for (wide pre) pre.
Proof.
  split; [done |]. split.
  - intros d. destruct (decide (d ∈ date_union pre)) as [H | H].
    + unfold Pd.row_or_nan at 1. simpl. by rewrite loc_map, decide_True.
    + rewrite row_or_nan_absent by (by rewrite index_wide). simpl.
      rewrite elem_of_date_union in H. by rewrite rows_absent.
  - intros d. by rewrite index_wide, elem_of_date_union.
Qed.

Lemma stands_for_single f : stands_for f [f].
Proof.
  split; [simpl; by rewrite app_nil_r |]. split.
  - intros d. simpl. by rewrite app_nil_r.
  - intros d. simpl. by rewrite app_nil_r.
Qed.

Lemma overlap_false (cs cs' : list string) :
  (∀ c, c ∈ cs → c ∉ cs') →
  existsb (λ c, existsb (String.eqb c) cs') cs = false.
Proof.
  intros H. apply not_true_is_false. intros E.
  apply existsb_exists in E as (c & Hc & E).
  apply existsb_exists in E as (c' & Hc' & E).
  apply String.eqb_eq in E as <-.
  apply list_elem_of_In in Hc, Hc'. by apply (H c).
Qed.

Lemma join_outer_wide acc pre f :
  stands_for acc pre →
  (∀ c, c ∈ columns acc → c ∉ columns f) →
  Pd.join_outer acc f = Ok (wide (pre ++ [f])).
Proof.
  intros (Hc & Hr & Hi) Hdis. unfold Pd.join_outer.
  rewrite overlap_false by done. f_equal. unfold wide. f_equal.
  - rewrite flat_map_app. simpl. by rewrite app_nil_r, Hc.
  - assert (Pd.index_union (Pd.index acc) (Pd.index f) = date_union (pre ++ [f]))
      as ->.
    { apply sort_dedup_eq. intros x. rewrite flat_map_app. simpl.
      rewrite app_nil_r, !elem_of_app, Hi. done. }
    apply map_ext. intros d. rewrite flat_map_app. simpl.
    by rewrite app_nil_r, Hr.
Qed.

Lemma empty_false {L} (df : DataFrame L) :
  Pd.empty df = false ↔ columns df ≠ [] ∧ rows df ≠ [].
Proof.
  unfold Pd.empty.
  destruct (columns df), (rows df); split; try done; by intros [? ?].
Qed.

Lemma wide_not_empty acc pre fs :
  stands_for acc pre → Pd.empty acc = false → Pd.empty (wide (pre ++ fs)) = false.
Proof.
  intros (Hc & _ & Hi) [Hcols Hrows]%empty_false. apply empty_false. split.
  - simpl. rewrite flat_map_app, <- Hc. by destruct (columns acc).
  - destruct (rows acc) as [|[d r] rs] eqn:E; [done |].
    assert (d ∈ date_union (pre ++ fs)) as Hd.
    { rewrite elem_of_date_union, flat_map_app, elem_of_app. left.
      apply Hi. unfold Pd.index. rewrite E. left. }
    simpl. destruct (date_union (pre ++ fs)); [by apply elem_of_nil in Hd | done].
Qed.

(** Once the table built so far is not empty, every further ticker is
    joined, and the result is the wide table of the specification. *)
Lemma merge_frames_wide fs : ∀ pre acc,
  stands_for acc pre →
  Pd.empty acc = false →
  NoDup (flat_map columns (pre ++ fs)) →
  merge_frames acc fs = Ok (match fs with [] => acc | _ => wide (pre ++ fs) end).
Proof.
  induction fs as [|f fs IH]; intros pre acc Hrep Hne Hnd; [done |].
  simpl. rewrite Hne.
  rewrite (join_outer_wide acc pre f Hrep).
  - replace (pre ++ f :: fs) with ((pre ++ [f]) ++ fs) in *
      by (by rewrite <- app_assoc).
    rewrite (IH (pre ++ [f]) (wide (pre ++ [f]))); try done.
    + by destruct fs; [rewrite app_nil_r |].
    + apply stands_for_wide.
    + by apply (wide_not_empty acc).
  - intros c Hc Hc'. destruct Hrep as (Hcols & _). rewrite Hcols in Hc.
    rewrite flat_map_app in Hnd. simpl in Hnd.
    apply NoDup_app in Hnd as (_ & Hnd & _).
    apply (Hnd c Hc). apply elem_of_app. by left.
Qed.

(** *** The encoding of (field, ticker) is free of collisions *)

Section ReprFacts.

#[local] Arguments String.append !_ _ / : simpl nomatch.

Lemma contains_append c a b :
Py.contains c (a +:+ b) = Py.contains c a || Py.contains c b.
Proof.
induction a as [|x a IH]; simpl; [done |]. by rewrite IH, orb_assoc.
Qed.

(** Escaping under another quote never makes a character shorter, unless
  the character is the first quote itself. *)
Lemma repr_char_length q1 q2 a :
(q1 = Py.squote ∨ q1 = Py.dquote) → (q2 = Py.squote ∨ q2 = Py.dquote) →
Ascii.eqb a q1 = false →
(String.length (Py.repr_char q1 a) ≤ String.length (Py.repr_char q2 a))%nat.
Proof.
intros [-> | ->] [-> | ->];
  destruct a as [[] [] [] [] [] [] [] []]; vm_compute; intros; try lia; done.
Qed.

Lemma repr_body_length_append q a b :
String.length (Py.repr_body q (a +:+ b))
= (String.length (Py.repr_body q a) + String.length (Py.repr_body q b))%nat.
Proof.
induction a as [|x a IH]; simpl; [done |].
rewrite !length_append, IH. lia.
Qed.

Lemma repr_body_length_mono q1 q2 t :
(q1 = Py.squote ∨ q1 = Py.dquote) → (q2 = Py.squote ∨ q2 = Py.dquote) →
Py.contains q1 t = false →
(String.length (Py.repr_body q1 t) ≤ String.length (Py.repr_body q2 t))%nat.
Proof.
intros H1 H2. induction t as [|x t IH]; simpl; [done |].
intros [Hx Ht]%orb_false_iff. rewrite !length_append.
pose proof (repr_char_length q1 q2 x H1 H2 Hx). specialize (IH Ht). lia.
Qed.

Lemma repr_quote_cases s : Py.repr_quote s = Py.squote ∨ Py.repr_quote s = Py.dquote.
Proof. unfold Py.repr_quote. destruct (_ && _); auto. Qed.

(** The body of [repr] of a string is no longer than the body of [repr]
  of the string with something in front. *)
Lemma repr_length_suffix u t :
(String.length (Py.repr t) ≤ String.length (Py.repr (u +:+ t)))%nat.
Proof.
unfold Py.repr. simpl. rewrite !length_append. simpl.
rewrite repr_body_length_append.
enough (String.length (Py.repr_body (Py.repr_quote t) t)
        ≤ String.length (Py.repr_body (Py.repr_quote (u +:+ t)) t))%nat by lia.
destruct (decide (Py.repr_quote t = Py.repr_quote (u +:+ t))) as [-> | Hq]; [done |].
apply repr_body_length_mono; try apply repr_quote_cases.
unfold Py.repr_quote in *. rewrite !contains_append in Hq.
destruct (Py.contains Py.squote t) eqn:E1, (Py.contains Py.dquote t) eqn:E2;
  simpl in *; try done; by rewrite ?orb_true_r in Hq.
Qed.

Lemma append_suffix a1 : ∀ a2 t1 t2,
a1 +:+ t1 = a2 +:+ t2 → (String.length t1 ≤ String.length t2)%nat →
∃ u, t2 = u +:+ t1 ∧ a1 = a2 +:+ u.
Proof.
induction a1 as [|x a1 IH]; intros a2 t1 t2 E Hlen.
- destruct a2 as [|y a2]; simpl in *.
  + exists "". by subst.
  + subst t1. simpl in Hlen. rewrite length_append in Hlen. lia.
- destruct a2 as [|y a2]; simpl in *.
  + exists (String x a1). by subst.
  + injection E as -> E. destruct (IH _ _ _ E Hlen) as (u & -> & ->).
    by exists u.
Qed.

Lemma repr_ticker_inj t1 t2 :
Py.repr t1 +:+ String ")" (String sep t1) = Py.repr t2 +:+ String ")" (String sep t2) →
t1 = t2.
Proof.
assert (∀ t1 t2,
  Py.repr t1 +:+ String ")" (String sep t1) = Py.repr t2 +:+ String ")" (String sep t2) →
  (String.length t1 ≤ String.length t2)%nat → t1 = t2) as Hle.
{ clear. intros t1 t2 E Hlen.
  change (String ")" (String sep ?t)) with (String ")" (String sep "") +:+ t) in E.
  rewrite <- !append_assoc in E.
  destruct (append_suffix _ _ _ _ E Hlen) as (u & -> & Eu).
  apply (f_equal String.length) in Eu. rewrite !length_append in Eu.
  pose proof (repr_length_suffix u t1) as Hu.
  change (String.length (String ")" (String sep ""))) with 2%nat in Eu.
  destruct u as [|a u]; [done | exfalso].
  change (String.length (String a u)) with (S (String.length u)) in Eu. lia. }
intros E. destruct (Nat.le_ge_cases (String.length t1) (String.length t2)).
- by apply Hle.
- symmetry. by apply Hle.
Qed.

End ReprFacts.

Lemma column_name_split f t :
  column_name (f, t) t
  = ("(" +:+ Py.repr f +:+ ", ") +:+ (Py.repr t +:+ String ")" (String sep t)).
Proof.
  unfold column_name, Py.str_tuple. cbn [fst snd]. by rewrite !append_assoc.
Qed.

Lemma column_name_inj f1 f2 t1 t2 :
  f1 ∈ ohlc → f2 ∈ ohlc →
  column_name (f1, t1) t1 = column_name (f2, t2) t2 → f1 = f2 ∧ t1 = t2.
Proof.
  unfold ohlc. rewrite !elem_of_cons. intros H1 H2 E.
  assert (f1 = f2) as <-.
  { destruct H1 as [-> | [-> | [-> | [-> | H1]]]]; [.. | by apply elem_of_nil in H1];
    destruct H2 as [-> | [-> | [-> | [-> | H2]]]]; try (by apply elem_of_nil in H2);
      try done; vm_compute in E; discriminate. }
  split; [done |]. apply repr_ticker_inj.
  rewrite !column_name_split in E. by apply (inj (String.append _)) in E.
Qed.

Lemma prepared_inj download t1 t2 :
  prepared download t1 = prepared download t2 → t1 = t2.
Proof.
  intros E. apply (f_equal (λ f, head (columns f))) in E. cbn in E.
  apply (inj Some) in E. apply column_name_inj in E as [_ ?]; [done | left ..].
Qed.

Lemma elem_of_prepared_columns download t c :
  c ∈ columns (prepared download t) ↔ ∃ f, f ∈ ohlc ∧ c = column_name (f, t) t.
Proof.
  unfold prepared. cbn [columns].
  change (map ?g ohlc) with (g <$> ohlc). rewrite list_elem_of_fmap. naive_solver.
Qed.

Lemma prepared_columns_NoDup download tickers :
  NoDup tickers → NoDup (flat_map columns (map (prepared download) tickers)).
Proof.
  intros Hnd. apply (NoDup_bind columns).
  - intros f1 f2 c [t1 [-> _]]%list_elem_of_fmap [t2 [-> _]]%list_elem_of_fmap.
    intros (g1 & Hg1 & ->)%elem_of_prepared_columns
           (g2 & Hg2 & E)%elem_of_prepared_columns.
    by apply column_name_inj in E as [_ ->].
  - intros f [t [-> _]]%list_elem_of_fmap. unfold prepared. cbn [columns].
    apply (NoDup_fmap_2_strong (λ g, column_name (g, t) t)).
    + intros g1 g2 H1 H2 E. by apply column_name_inj in E as [? _].
    + unfold ohlc. repeat (apply NoDup_cons; split; [set_solver |]). apply NoDup_nil_2.
  - apply (NoDup_fmap_2_strong (prepared download)); [| done].
    intros t1 t2 _ _. apply prepared_inj.
Qed.

Lemma StronglySorted_lt_le (l : list Z) :
  StronglySorted Z.lt l → StronglySorted Z.le l.
Proof.
  induction 1 as [|x l _ IH Hx]; constructor; [done |].
  eapply Forall_impl; [exact Hx |]. intros y ?. simpl in *. lia.
Qed.

Lemma StronglySorted_lt_NoDup (l : list Z) : StronglySorted Z.lt l → NoDup l.
Proof.
  induction 1 as [|x l _ IH Hx]; constructor; [| done].
  intros Hin. rewrite Forall_forall in Hx. specialize (Hx x Hin). lia.
Qed.

Lemma StronglySorted_le_lt (l : list Z) :
  StronglySorted Z.le l → NoDup l → StronglySorted Z.lt l.
Proof.
  induction 1 as [|x l _ IH Hx]; intros Hnd; constructor.
  - apply IH. by apply NoDup_cons in Hnd as [_ ?].
  - apply NoDup_cons in Hnd as [Hx' _]. rewrite Forall_forall in *.
    intros y Hy. specialize (Hx y Hy). assert (x ≠ y) by (by intros ->). lia.
Qed.

Lemma sort_dedup_sorted (l : list Z) :
  StronglySorted Z.lt l → merge_sort Z.le (remove_dups l) = l.
Proof.
  intros H. apply (StronglySorted_unique Z.le).
  - apply StronglySorted_merge_sort; apply _.
  - by apply StronglySorted_lt_le.
  - rewrite merge_sort_Permutation.
    apply NoDup_Permutation; [apply NoDup_remove_dups | |].
    + by apply StronglySorted_lt_NoDup.
    + intros x. apply elem_of_remove_dups.
Qed.

Lemma date_union_sorted fs : StronglySorted Z.lt (date_union fs).
Proof.
  apply StronglySorted_le_lt; [| apply NoDup_date_union].
  apply StronglySorted_merge_sort; apply _.
Qed.

Lemma rows_by_loc (rs : list (Date * list cell)) (dflt : list cell) :
  StronglySorted Z.lt (map fst rs) →
  map (λ d, (d, default dflt (Pd.loc d rs) ++ [])) (map fst rs) = rs.
Proof.
  induction rs as [|[d r] rs IH]; [done |].
  intros H. inversion H as [|? ? Hs Hd]; subst. simpl.
  rewrite Z.eqb_refl. simpl. rewrite app_nil_r. f_equal.
  rewrite <- (IH Hs) at 2. apply map_ext_in. intros d' Hd'.
  rewrite Forall_forall in Hd. apply list_elem_of_In in Hd'.
  specialize (Hd d' Hd'). destruct (Z.eqb_spec d d'); [lia | done].
Qed.

Lemma wide_single (f : DataFrame string) :
  StronglySorted Z.lt (Pd.index f) → wide [f] = f.
Proof.
  intros H. destruct f as [cols rs]. unfold wide, date_union. simpl.
  rewrite !app_nil_r. f_equal. unfold Pd.index in *. simpl in *.
  rewrite sort_dedup_sorted by done. by apply rows_by_loc.
Qed.

(** The loop, for Series of which the first has rows, builds the wide
    table of the specification. *)
Lemma merge_wide download tickers :
  NoDup tickers →
  (∀ t, t ∈ tickers → Series t (download t)) →
  (∀ t, head tickers = Some t → rows (download t) ≠ []) →
  merge download tickers = Ok (wide (map (prepared download) tickers)).
Proof.
  intros Hnd Hser Hhd. unfold merge. rewrite merge_loop_frames by done.
  destruct tickers as [|t ts]; [done |]. simpl.
  assert (Pd.empty (prepared download t) = false) as Hne.
  { apply empty_false. split; [done |]. simpl.
    specialize (Hhd t eq_refl). by destruct (rows (download t)). }
  rewrite (merge_frames_wide _ [prepared download t]).
  - destruct ts; [| done]. simpl map. rewrite wide_single; [done |].
    rewrite index_prepared. apply Hser. left.
  - apply stands_for_single.
  - done.
  - by apply (prepared_columns_NoDup download (t :: ts)).
Qed.

(** Whatever Series have no rows, the loop ends normally, and the dates
    of the table are the dates of the Series. *)
Lemma merge_frames_runs fs : ∀ acc,
  NoDup (columns acc ++ flat_map columns fs) →
  (columns acc = [] → rows acc = []) →
  (∀ f, f ∈ fs → columns f ≠ []) →
  ∃ wt, merge_frames acc fs = Ok wt ∧
        ∀ d, d ∈ Pd.index wt ↔ d ∈ Pd.index acc ∨ d ∈ flat_map Pd.index fs.
Proof.
  induction fs as [|f fs IH]; intros acc Hnd Hacc Hcols.
  { exists acc. split; [done |]. intros d. simpl. rewrite elem_of_nil. tauto. }
  assert (columns f ≠ []) as Hf by (apply Hcols; left).
  simpl. destruct (Pd.empty acc) eqn:Hemp.
  - destruct (IH f) as (wt & Hwt & Hd).
    + simpl in Hnd. by apply NoDup_app in Hnd as (_ & _ & ?).
    + done.
    + intros f' Hf'. apply Hcols. by right.
    + exists wt. split; [done |]. intros d. rewrite Hd, elem_of_app.
      assert (rows acc = []) as Hr.
      { unfold Pd.empty in Hemp.
        destruct (columns acc) eqn:E1; [by apply Hacc |].
        by destruct (rows acc). }
      unfold Pd.index at 3. rewrite Hr. simpl. rewrite elem_of_nil. tauto.
  - rewrite (join_outer_wide acc [acc] f (stands_for_single acc)).
    + destruct (IH (wide ([acc] ++ [f]))) as (wt & Hwt & Hd).
      * simpl. rewrite !app_nil_r. simpl in Hnd. by rewrite <- app_assoc.
      * simpl. rewrite app_nil_r. intros [_ ?]%app_eq_nil. done.
      * intros f' Hf'. apply Hcols. by right.
      * exists wt. split; [done |]. intros d.
        rewrite Hd, index_wide, elem_of_date_union. simpl.
        rewrite app_nil_r, !elem_of_app. tauto.
    + intros c Hc Hc'. simpl in Hnd. apply NoDup_app in Hnd as (_ & Hnd & _).
      apply (Hnd c Hc). apply elem_of_app. by left.
Qed.

Lemma elem_of_index_prepared download tickers d :
  d ∈ flat_map Pd.index (map (prepared download) tickers)
  ↔ ∃ t, t ∈ tickers ∧ d ∈ Pd.index (download t).
Proof.
  induction tickers as [|t ts IH]; simpl.
  - rewrite elem_of_nil. split; [done |]. by intros (t & ?%elem_of_nil & _).
  - rewrite elem_of_app, IH, index_prepared. split.
    + intros [H | (t' & H1 & H2)]; [exists t | exists t']; split; try done;
        [left | by right].
    + intros (t' & [-> | H1]%elem_of_cons & H2); [by left | right; eauto].
Qed.

(** C8 (as the code has it): when every download is a Series, some of
    them without rows, the merge ends normally, and the dates of its
    table are exactly the dates of the Series that have rows: a ticker
    whose download came back empty adds no date. *)
Theorem merge_excludes_empty_series
    (download : string → DataFrame (string * string)) (tickers : list string) :
  NoDup tickers →
  (∀ t, t ∈ tickers → Series t (download t)) →
  ∃ wt, merge download tickers = Ok wt ∧
        ∀ d, d ∈ Pd.index wt ↔
             ∃ t, t ∈ tickers ∧ rows (download t) ≠ [] ∧ d ∈ Pd.index (download t).
Proof.
  intros Hnd Hser. unfold merge. rewrite merge_loop_frames by done.
  destruct (merge_frames_runs (map (prepared download) tickers) Pd.DataFrame0)
    as (wt & Hwt & Hd).
  - simpl. by apply prepared_columns_NoDup.
  - done.
  - by intros f [t [-> _]]%list_elem_of_fmap.
  - exists wt. split; [done |]. intros d.
    rewrite Hd, elem_of_index_prepared. simpl. rewrite elem_of_nil. split.
    + intros [[] | (t & H1 & H2)]. exists t. repeat split; try done.
      intros E. unfold Pd.index in H2. rewrite E in H2. by apply elem_of_nil in H2.
    + intros (t & H1 & _ & H2). right. eauto.
Qed.

Lemma yf_table_Series t rs :
  Forall (λ dr : Date * list cell, length dr.2 = 5%nat) rs →
  StronglySorted Z.lt (map fst rs) →
  Series t (yf_table t rs).
Proof. intros H1 H2. repeat split; done. Qed.

Lemma scenario_Series t : Series t (scenario t).
Proof.
  unfold scenario. repeat case_match; apply yf_table_Series;
    repeat constructor; done.
Qed.

Lemma apart_Series t : Series t (apart t).
Proof.
  unfold apart. repeat case_match; apply yf_table_Series;
    repeat constructor; done.
Qed.

(** *** Symbol extraction after the merge *)

Lemma startswith_column_name col t :
  Py.startswith "(" (column_name col t) = true.
Proof. done. Qed.

Lemma extract_tickers_app cs1 cs2 :
  extract_tickers (cs1 ++ cs2) = extract_tickers cs1 ∪ extract_tickers cs2.
Proof.
  unfold extract_tickers. by rewrite List.filter_app, map_app, list_to_set_app_L.
Qed.

Lemma extract_tickers_prepared download tickers :
  (∀ t, t ∈ tickers → Py.contains sep t = false) →
  extract_tickers (flat_map columns (map (prepared download) tickers))
  = list_to_set tickers.
Proof.
  induction tickers as [|t ts IH]; intros H; [done |].
  cbn [map flat_map]. rewrite extract_tickers_app, IH by (intros; apply H; by right).
  rewrite list_to_set_cons. f_equal. unfold extract_tickers.
  cbn [prepared columns ohlc map List.filter].
  rewrite !startswith_column_name. cbn [map].
  unfold column_name. rewrite !ticker_of_append.
  rewrite ticker_of_no_sep by (apply H; left). set_solver.
Qed.

(** C2: for Series that all have rows and tickers without the separator,
    the merge ends normally and the tickers extracted from the columns of
    its table are exactly the tickers supplied. *)
Theorem extract_tickers_merge
    (download : string → DataFrame (string * string)) (tickers : list string) :
  NoDup tickers →
  (∀ t, t ∈ tickers →
        Series t (download t) ∧ rows (download t) ≠ [] ∧
        Py.contains sep t = false) →
  ∃ wt, merge download tickers = Ok wt ∧
        extract_tickers (columns wt) = list_to_set tickers.
Proof.
  intros Hnd H. exists (wide (map (prepared download) tickers)). split.
  - apply merge_wide; [done | intros; by apply H |].
    intros t Ht. apply H. destruct tickers; simplify_eq/=. left.
  - apply extract_tickers_prepared. intros. by apply H.
Qed.

Lemma extract_tickers_merge_scenario :
  ∃ wt, merge scenario ["AAA"; "BBB"] = Ok wt ∧
        extract_tickers (columns wt) = list_to_set ["AAA"; "BBB"].
Proof.
  apply (extract_tickers_merge scenario ["AAA"; "BBB"]).
  - repeat constructor; set_solver.
  - intros t Ht. split; [apply scenario_Series |].
    repeat (apply elem_of_cons in Ht as [-> | Ht]); [done .. |].
    by apply elem_of_nil in Ht.
Defined.

(** *** Rows and missing values of the merge *)

Lemma loc_Some_elem d rs r : Pd.loc d rs = Some r → (d, r) ∈ rs.
Proof.
  induction rs as [|[d' r'] rs IH]; simpl; [done |].
  destruct (Z.eqb_spec d' d) as [-> | ?].
  - intros [= ->]. left.
  - intros H. right. auto.
Qed.

Lemma filter_none {A} (p : A → bool) (l : list A) :
  forallb (λ x, negb (p x)) l = true → List.filter p l = [].
Proof.
  induction l as [|x l IH]; simpl; [done |].
  intros [Hx Hl]%andb_true_iff. destruct (p x); [done | auto].
Qed.

Lemma missing_in_row download t d :
  Series t (download t) → numeric (download t) →
  length (List.filter Pd.isna (Pd.row_or_nan (prepared download t) d))
  = if decide (d ∈ Pd.index (download t)) then 0%nat else 4%nat.
Proof.
  intros Hser Hnum. unfold Pd.row_or_nan.
  destruct (Pd.loc d (rows (prepared download t))) as [r |] eqn:E; simpl.
  - apply loc_Some_elem in E as Hin. cbn [prepared rows] in Hin.
    rewrite decide_True.
    + unfold numeric in Hnum. rewrite Forall_forall in Hnum.
      by rewrite (filter_none Pd.isna r (Hnum _ Hin)).
    + rewrite <- index_prices. unfold Pd.index.
      change (map fst ?l) with (fst <$> l). apply list_elem_of_fmap.
      by exists (d, r).
  - rewrite decide_False; [done |].
    intros Hin. rewrite <- (index_prepared download) in Hin.
    apply loc_is_Some in Hin as [r Hr]. congruence.
Qed.

Lemma list_sum_add {A} (g h : A → nat) l :
  list_sum (map (λ x, g x + h x)%nat l)
  = (list_sum (map g l) + list_sum (map h l))%nat.
Proof. induction l as [|x l IH]; simpl; [done | lia]. Qed.

Lemma list_sum_mul {A} (k : nat) (g : A → nat) l :
  list_sum (map (λ x, k * g x)%nat l) = (k * list_sum (map g l))%nat.
Proof. induction l as [|x l IH]; simpl; [lia | lia]. Qed.

Lemma missing_by_table (ds : list Date) (fs : list (DataFrame string)) :
  list_sum (map (λ d, length (List.filter Pd.isna
                                (flat_map (λ f, Pd.row_or_nan f d) fs))) ds)
  = list_sum (map (λ f, list_sum (map (λ d, length (List.filter Pd.isna
                                                      (Pd.row_or_nan f d))) ds)) fs).
Proof.
  induction fs as [|f fs IH]; simpl.
  - induction ds; simpl; [done | lia].
  - rewrite <- IH, <- list_sum_add. f_equal. apply map_ext. intros d.
    by rewrite List.filter_app, length_app.
Qed.

Lemma uncovered_count (ds idx : list Z) :
  NoDup ds →
  list_sum (map (λ d, if decide (d ∈ idx) then 0 else 4)%nat ds)
  = (4 * size ((list_to_set ds : gset Z) ∖ list_to_set idx))%nat.
Proof.
  intros Hnd.
  assert ((list_to_set ds : gset Z) ∖ list_to_set idx
          = list_to_set (filter (λ d, d ∉ idx) ds)) as ->.
  { apply set_eq. intros d.
    rewrite elem_of_difference, !elem_of_list_to_set, list_elem_of_filter. tauto. }
  rewrite size_list_to_set by (by apply NoDup_filter).
  clear Hnd. induction ds as [|d ds IH]; simpl; [done |].
  rewrite filter_cons. rewrite IH.
  destruct (decide (d ∈ idx)); destruct (decide (d ∉ idx)); simpl; try done; lia.
Qed.

Lemma all_dates_union download tickers :
  (list_to_set (date_union (map (prepared download) tickers)) : gset Z)
  = all_dates download tickers.
Proof.
  apply set_eq. intros d.
  rewrite elem_of_list_to_set, elem_of_date_union, elem_of_index_prepared.
  unfold all_dates. rewrite elem_of_union_list. split.
  - intros (t & Ht & Hd). exists (dates (download t)). split.
    + change (map ?g tickers) with (g <$> tickers).
      apply list_elem_of_fmap. by exists t.
    + by apply elem_of_list_to_set.
  - intros (X & [t [-> Ht]]%list_elem_of_fmap & Hd).
    exists t. split; [done |]. by apply elem_of_list_to_set in Hd.
Qed.

Lemma apart_numeric t : numeric (apart t).
Proof.
  unfold apart, numeric. repeat case_match; repeat constructor.
Qed.

(** C3 (as the code has it): for Series with numeric prices on disjoint
    dates, the first of which has rows, the merge yields a table with one
    row per date of the union, in ascending order; its number of rows is
    the size of the union, and its number of missing values is four for
    every ticker and every date of the union the ticker does not cover. *)
Theorem merge_rows_and_missing
    (download : string → DataFrame (string * string)) (tickers : list string) :
  NoDup tickers →
  (∀ t, t ∈ tickers → Series t (download t) ∧ numeric (download t)) →
  (∀ t1 t2, t1 ∈ tickers → t2 ∈ tickers → t1 ≠ t2 →
            dates (download t1) ## dates (download t2)) →
  (∀ t, head tickers = Some t → rows (download t) ≠ []) →
  ∃ wt, merge download tickers = Ok wt ∧
        StronglySorted Z.lt (Pd.index wt) ∧
        (list_to_set (Pd.index wt) : gset Z) = all_dates download tickers ∧
        length (rows wt) = size (all_dates download tickers) ∧
        count_missing wt
        = (4 * list_sum (map (λ t, size (all_dates download tickers
                                          ∖ dates (download t))) tickers))%nat.
Proof.
  intros Hnd H _ Hhd. exists (wide (map (prepared download) tickers)).
  split; [apply merge_wide; [done | intros; by apply H | done] |].
  rewrite index_wide. split; [apply date_union_sorted |].
  split; [apply all_dates_union |]. split.
  - rewrite <- all_dates_union, size_list_to_set by apply NoDup_date_union.
    unfold wide. cbn [rows]. by rewrite length_map.
  - unfold count_missing, wide. cbn [rows]. rewrite map_map. cbn [snd].
    rewrite missing_by_table, map_map, <- list_sum_mul. f_equal.
    apply map_ext_in. intros t Ht%list_elem_of_In.
    destruct (H t Ht) as [Hser Hnum].
    rewrite (map_ext _ _ (λ d, missing_in_row download t d Hser Hnum)).
    rewrite uncovered_count by apply NoDup_date_union.
    by rewrite all_dates_union.
Qed.

Lemma merge_rows_and_missing_apart :
  ∃ wt, merge apart ["AAA"; "CCC"; "BBB"] = Ok wt ∧
        StronglySorted Z.lt (Pd.index wt) ∧
        (list_to_set (Pd.index wt) : gset Z) = all_dates apart ["AAA"; "CCC"; "BBB"] ∧
        length (rows wt) = size (all_dates apart ["AAA"; "CCC"; "BBB"]) ∧
        count_missing wt
        = (4 * list_sum (map (λ t, size (all_dates apart ["AAA"; "CCC"; "BBB"]
                                          ∖ dates (apart t)))
                             ["AAA"; "CCC"; "BBB"]))%nat.
Proof.
  apply (merge_rows_and_missing apart ["AAA"; "CCC"; "BBB"]).
  - repeat constructor; set_solver.
  - intros t _. split; [apply apart_Series | apply apart_numeric].
  - intros t1 t2 H1 H2 Hne.
    repeat (apply elem_of_cons in H1 as [-> | H1]);
      try (by apply elem_of_nil in H1);
      repeat (apply elem_of_cons in H2 as [-> | H2]);
      try (by apply elem_of_nil in H2); try done;
      apply (bool_decide_unpack _); by vm_compute.
  - intros t [= <-]. done.
Defined.

(** C3, counterexample: AAA and BBB cover disjoint dates and the
    download of CCC, supplied first, has no rows.  The loop replaces the
    empty table, so the columns of CCC are not in the result: 4 rows and
    16 missing values, where the claim counts 32 (16 more for CCC). *)
Lemma merge_drops_leading_empty :
  ∃ wt, merge apart ["CCC"; "AAA"; "BBB"] = Ok wt ∧
        length (rows wt) = 4%nat ∧
        length (columns wt) = 8%nat ∧
        count_missing wt = 16%nat ∧
        (4 * list_sum (map (λ t, size (all_dates apart ["CCC"; "AAA"; "BBB"]
                                        ∖ dates (apart t)))
                           ["CCC"; "AAA"; "BBB"]))%nat = 32%nat.
Proof. eexists. split; [vm_compute; reflexivity |]. vm_compute. done. Qed.

(** *** The order of the tickers *)

Lemma cells_where_app {L A} (p : L → bool) (c1 c2 : list L) (r1 r2 : list A) :
  length r1 = length c1 →
  Pd.cells_where p (c1 ++ c2) (r1 ++ r2)
  = Pd.cells_where p c1 r1 ++ Pd.cells_where p c2 r2.
Proof.
  revert r1. induction c1 as [|c c1 IH]; intros [|x r1] E; simpl in *; try done.
  injection E as E. rewrite IH by done. by destruct (p c).
Qed.

Lemma cells_where_flat_map (p : string → bool) (fs : list (DataFrame string)) d :
  (∀ f, f ∈ fs → length (Pd.row_or_nan f d) = length (columns f)) →
  Pd.cells_where p (flat_map columns fs) (flat_map (λ f, Pd.row_or_nan f d) fs)
  = flat_map (λ f, Pd.cells_where p (columns f) (Pd.row_or_nan f d)) fs.
Proof.
  induction fs as [|f fs IH]; intros H; [done |].
  simpl. rewrite cells_where_app by (apply H; left).
  rewrite IH; [done |]. intros f' Hf'. apply H. by right.
Qed.

Lemma cells_where_not_nil {L A} (p : L → bool) (cols : list L) (r : list A) :
  Pd.cells_where p cols r ≠ [] → ∃ c, c ∈ cols ∧ p c = true.
Proof.
  revert r. induction cols as [|c cols IH]; intros [|x r]; simpl; try done.
  destruct (p c) eqn:E.
  - intros _. exists c. split; [left | done].
  - intros (c' & ? & ?)%IH. exists c'. split; [by right | done].
Qed.

Lemma row_or_nan_width download t d :
  Series t (download t) →
  length (Pd.row_or_nan (prepared download t) d)
  = length (columns (prepared download t)).
Proof.
  intros Hser. unfold Pd.row_or_nan.
  destruct (Pd.loc d (rows (prepared download t))) as [r |] eqn:E; simpl.
  - apply loc_Some_elem in E. cbn [prepared rows] in E.
    pose proof (prices_width _ _ Hser) as Hw. rewrite Forall_forall in Hw.
    apply (Hw _ E).
  - done.
Qed.

(** Where at most one table answers, the order of the tables does not
    change the answer. *)
Lemma flat_map_Permutation_single {A B} (g : A → list B) (l1 l2 : list A) :
  l1 ≡ₚ l2 →
  (∀ x y, x ∈ l1 → y ∈ l1 → g x ≠ [] → g y ≠ [] → x = y) →
  flat_map g l1 = flat_map g l2.
Proof.
  induction 1 as [| x l l' _ IH | x y l | l l' l'' Hp1 IH1 Hp2 IH2]; intros H.
  - done.
  - simpl. rewrite IH; [done |]. intros a b Ha Hb. apply H; by right.
  - simpl. destruct (g x) eqn:Ex; [done |].
    destruct (g y) eqn:Ey; [done |].
    assert (y = x) as ->.
    { apply H; [left | right; left | congruence ..]. }
    by rewrite Ex in Ey; simplify_eq.
  - rewrite IH1 by done. apply IH2.
    intros a b Ha Hb. apply H; by rewrite Hp1.
Qed.

Lemma cell_at_wide (fs : list (DataFrame string)) d c :
  (∀ f, f ∈ fs → length (Pd.row_or_nan f d) = length (columns f)) →
  cell_at (wide fs) d c
  = if decide (d ∈ date_union fs)
    then head (flat_map (λ f, Pd.cells_where (String.eqb c) (columns f)
                                (Pd.row_or_nan f d)) fs)
    else None.
Proof.
  intros H. unfold cell_at, wide. cbn [rows columns]. rewrite loc_map.
  case_decide; [| done]. by rewrite cells_where_flat_map.
Qed.

Lemma columns_prepared download tickers :
  flat_map columns (map (prepared download) tickers)
  = flat_map (λ t, map (λ field, column_name (field, t) t) ohlc) tickers.
Proof.
  induction tickers as [|t ts IH]; [done |].
  cbn [map flat_map]. by rewrite IH.
Qed.

(** C10 (as the code has it): the same tickers with the same Series,
    supplied in two orders that both start with a Series that has rows,
    give tables with the same dates, the same columns up to their order,
    and the same cell at every date under every column name; in each
    table the columns stand in the order of its tickers, Open, High, Low
    and Close of the first ticker, then of the second, and so on. *)
Theorem merge_order_independent
    (download : string → DataFrame (string * string))
    (tickers1 tickers2 : list string) :
  tickers1 ≡ₚ tickers2 →
  NoDup tickers1 →
  (∀ t, t ∈ tickers1 → Series t (download t)) →
  (∀ t, head tickers1 = Some t → rows (download t) ≠ []) →
  (∀ t, head tickers2 = Some t → rows (download t) ≠ []) →
  ∃ wt1 wt2,
    merge download tickers1 = Ok wt1 ∧
    merge download tickers2 = Ok wt2 ∧
    Pd.index wt1 = Pd.index wt2 ∧
    columns wt1 ≡ₚ columns wt2 ∧
    (∀ d c, cell_at wt1 d c = cell_at wt2 d c) ∧
    columns wt1
    = flat_map (λ t, map (λ field, column_name (field, t) t) ohlc) tickers1 ∧
    columns wt2
    = flat_map (λ t, map (λ field, column_name (field, t) t) ohlc) tickers2.
Proof.
  intros Hp Hnd Hser Hhd1 Hhd2.
  assert (map (prepared download) tickers1 ≡ₚ map (prepared download) tickers2)
    as Hfs by (by apply fmap_Permutation).
  assert (date_union (map (prepared download) tickers1)
          = date_union (map (prepared download) tickers2)) as Hdu.
  { apply sort_dedup_eq. intros x. rewrite !elem_of_index_prepared.
    by setoid_rewrite Hp. }
  exists (wide (map (prepared download) tickers1)),
         (wide (map (prepared download) tickers2)).
  split; [by apply merge_wide |].
  split.
  { apply merge_wide; [by rewrite <- Hp | | done].
    intros t Ht. apply Hser. by rewrite Hp. }
  split; [by rewrite !index_wide |].
  split; [by apply Permutation_flat_map |].
  split; [| split; apply columns_prepared].
  intros d c. rewrite !cell_at_wide.
  - rewrite Hdu. case_decide; [| done]. f_equal.
    apply flat_map_Permutation_single; [done |].
    intros f1 f2 [t1 [-> Ht1]]%list_elem_of_fmap [t2 [-> Ht2]]%list_elem_of_fmap.
    intros (c1 & (g1 & Hg1 & ->)%elem_of_prepared_columns & ->%String.eqb_eq)
             %cells_where_not_nil.
    intros (c2 & (g2 & Hg2 & E)%elem_of_prepared_columns & <-%String.eqb_eq)
             %cells_where_not_nil.
    by apply column_name_inj in E as [_ ->].
  - intros f [t [-> Ht]]%list_elem_of_fmap. apply row_or_nan_width.
    apply Hser. by rewrite Hp.
  - intros f [t [-> Ht]]%list_elem_of_fmap. by apply row_or_nan_width, Hser.
Qed.

Lemma merge_order_independent_scenario :
  ∃ wt1 wt2,
    merge scenario ["AAA"; "CCC"; "BBB"] = Ok wt1 ∧
    merge scenario ["BBB"; "AAA"; "CCC"] = Ok wt2 ∧
    Pd.index wt1 = Pd.index wt2 ∧
    columns wt1 ≡ₚ columns wt2 ∧
    (∀ d c, cell_at wt1 d c = cell_at wt2 d c) ∧
    columns wt1
    = flat_map (λ t, map (λ field, column_name (field, t) t) ohlc)
        ["AAA"; "CCC"; "BBB"] ∧
    columns wt2
    = flat_map (λ t, map (λ field, column_name (field, t) t) ohlc)
        ["BBB"; "AAA"; "CCC"].
Proof.
  apply (merge_order_independent scenario).
  - symmetry. apply (Permutation_cons_append ["AAA"; "CCC"] "BBB").
  - repeat constructor; set_solver.
  - intros t _. apply scenario_Series.
  - intros t [= <-]. done.
  - intros t [= <-]. done.
Defined.

(** C10, counterexample: the download of CCC has no rows.  Supplied
    first, its columns are replaced and the table has the 8 columns of AAA
    and BBB; supplied last, its 4 columns are joined, all missing, and the
    table has 12 columns.  And with the same columns in both tables, their
    order still follows the order of the tickers. *)
Lemma merge_order_dependent :
  ∃ wt1 wt2 wt3 wt4 : DataFrame string,
    merge scenario ["CCC"; "AAA"; "BBB"] = Ok wt1 ∧
    merge scenario ["AAA"; "BBB"; "CCC"] = Ok wt2 ∧
    length (columns wt1) = 8%nat ∧ length (columns wt2) = 12%nat ∧
    cell_at wt1 1%Z (column_name ("Open", "CCC") "CCC") = None ∧
    cell_at wt2 1%Z (column_name ("Open", "CCC") "CCC") = Some NaN ∧
    merge scenario ["AAA"; "BBB"] = Ok wt3 ∧
    merge scenario ["BBB"; "AAA"] = Ok wt4 ∧
    head (columns wt3) = Some (column_name ("Open", "AAA") "AAA") ∧
    head (columns wt4) = Some (column_name ("Open", "BBB") "BBB").
Proof.
  do 4 eexists.
  split; [vm_compute; reflexivity |]. split; [vm_compute; reflexivity |].
  do 4 (split; [vm_compute; reflexivity |]).
  split; [vm_compute; reflexivity |]. split; [vm_compute; reflexivity |].
  split; vm_compute; reflexivity.
Qed.

Lemma merge_excludes_empty_series_scenario :
  ∃ wt, merge scenario ["AAA"; "CCC"; "BBB"] = Ok wt ∧
        ∀ d, d ∈ Pd.index wt ↔
             ∃ t, t ∈ ["AAA"; "CCC"; "BBB"] ∧ rows (scenario t) ≠ [] ∧
                  d ∈ Pd.index (scenario t).
Proof.
  apply (merge_excludes_empty_series scenario ["AAA"; "CCC"; "BBB"]).
  - repeat constructor; set_solver.
  - intros t _. apply scenario_Series.
Defined.

(** C8, counterexample: the download of CCC failed altogether and came
    back as [pd.DataFrame()], without the price columns; selecting them
    raises [KeyError], no statement of the loop catches it, and the merge
    ends there although AAA and BBB were downloaded. *)
Lemma merge_aborts_on_absent_series :
  absent "CCC" = Pd.DataFrame0 ∧
  Series "AAA" (absent "AAA") ∧ Series "BBB" (absent "BBB") ∧
  merge absent ["AAA"; "CCC"; "BBB"] = Raise (KeyError "Open").
Proof.
  split; [done |]. split; [apply scenario_Series |].
  split; [apply scenario_Series | done].
Qed.

(** ** The chart functions *)

Ltac munfold :=
  unfold mbind, mret, M_bind, M_ret, print, emit, deref, new, assign, getitem,
    copy, set_columns, dropna_inplace, tail, is_empty, lift, raise, try_except,
    with_output, plot, show in *.

(** Runs the statements until one branches on the data. *)
Ltac mrun := repeat (progress (munfold; cbn [heap log fst snd])).

Lemma lookup_fresh_ne (h : gmap nat (DataFrame string)) l x :
  h !! l = Some x → fresh (dom h) ≠ l.
Proof.
  intros H E. pose proof (is_fresh (dom h)) as Hf. rewrite E in Hf.
  apply Hf. apply elem_of_dom. eauto.
Qed.

Lemma lookup_insert_fresh (h : gmap nat (DataFrame string)) l x y :
  h !! l = Some x → <[fresh (dom h) := y]> h !! l = Some x.
Proof. intros H. rewrite lookup_insert_ne; [done |]. by eapply lookup_fresh_ne. Qed.

Section ChartFacts.

Variable mpf_plot : DataFrame string → string → option string → option exn.
Variable plt_show : DataFrame string → option exn.
Variable os_path_join : string → string → string.
Variable in_kernel : bool.

(** One iteration of the batch loop, in terms of the table [df] refers
    to: how it ends, what it prints and plots, and that every table
    that existed before is still there, unchanged. *)
Lemma chart_ticker_run k df t w d :
  heap w !! df = Some d →
  ∃ w', chart_ticker mpf_plot os_path_join k df t w = (chart_result d t, w') ∧
        log w' = log w ++ chart_events mpf_plot os_path_join k d t ∧
        ∀ l x, heap w !! l = Some x → heap w' !! l = Some x.
Proof.
  intros Hd. destruct w as [h lg]. cbn [heap log] in *.
  unfold chart_ticker, chart_result, chart_events, project, project_as,
    ticker_columns.
  mrun. rewrite !(lookup_total_correct _ _ _ Hd).
  destruct (Pd.getitem _ d) as [sel | e]; cbn [heap log fst snd].
  2:{ eexists. split; [reflexivity |]. split; done. }
  rewrite !lookup_total_insert_eq.
  destruct (Pd.set_columns ohlc sel) as [td | e]; cbn [heap log fst snd].
  2:{ eexists. split; [reflexivity |]. split; [done |].
      cbn [heap]. intros. by apply lookup_insert_fresh. }
  rewrite !lookup_total_insert_eq, !insert_insert_eq.
  destruct (Pd.empty (Pd.dropna td)); cbn [heap log fst snd].
  { eexists. split; [reflexivity |]. split; [by rewrite <- app_assoc |].
    cbn [heap]. intros. by apply lookup_insert_fresh. }
  rewrite !lookup_total_insert_eq.
  destruct (mpf_plot _ _ _) as [e |]; cbn [heap log fst snd];
    (eexists; split; [reflexivity |]; split; [by rewrite <- !app_assoc |]);
    cbn [heap]; intros; by do 2 apply lookup_insert_fresh.
Qed.

(** The handler of the dropdown, likewise. *)
Lemma update_chart_run df t w d :
  heap w !! df = Some d →
  ∃ w', update_chart mpf_plot plt_show in_kernel df t w = (update_result in_kernel d t, w') ∧
        log w' = log w ++ update_events mpf_plot plt_show in_kernel d t ∧
        ∀ l x, heap w !! l = Some x → heap w' !! l = Some x.
Proof.
  intros Hd. destruct w as [h lg]. cbn [heap log] in *.
  unfold update_chart, update_result, update_events, project_selected,
    project_as, ticker_columns.
  mrun. rewrite !(lookup_total_correct _ _ _ Hd).
  destruct (_ <? 4)%nat; mrun.
  { eexists. split; [reflexivity |]. split; [by rewrite <- !app_assoc | done]. }
  rewrite !(lookup_total_correct _ _ _ Hd).
  destruct (Pd.getitem _ d) as [sel | e]; mrun.
  2:{ destruct in_kernel; mrun;
        (eexists; split; [reflexivity |]; split; [by rewrite <- !app_assoc | done]). }
  rewrite !lookup_total_insert_eq.
  assert (∀ (y z : DataFrame string) l x, h !! l = Some x →
            <[fresh (dom (<[fresh (dom h) := y]> h)) := z]>
              (<[fresh (dom h) := y]> h) !! l = Some x) as Hfr.
  { intros y z l x Hl. by do 2 apply lookup_insert_fresh. }
  destruct (Pd.set_columns _ sel) as [td | e]; mrun.
  2:{ destruct in_kernel; mrun;
        (eexists; split; [reflexivity |]; split; [by rewrite <- !app_assoc |]);
        cbn [heap]; apply Hfr. }
  rewrite !lookup_total_insert_eq, !insert_insert_eq.
  destruct (Pd.empty (Pd.dropna td)); cbn [negb]; mrun.
  { eexists. split; [reflexivity |]. split; [by rewrite <- !app_assoc |].
    cbn [heap]. apply Hfr. }
  rewrite ?lookup_total_insert_eq.
  destruct (mpf_plot _ _ _) as [e |]; mrun.
  { eexists. split; [reflexivity |]. split; [by rewrite <- !app_assoc |].
    cbn [heap]. apply Hfr. }
  rewrite ?lookup_total_insert_eq.
  destruct (plt_show _) as [e |]; mrun;
    (eexists; split; [reflexivity |]; split; [by rewrite <- !app_assoc |]);
    cbn [heap]; apply Hfr.
Qed.

(** The batch loop runs the iterations in turn, until one raises. *)
Lemma for_each_run k df d ts : ∀ w,
  heap w !! df = Some d →
  ∃ w', for_each (chart_ticker mpf_plot os_path_join k df) ts w
        = (batch_result d ts, w') ∧
        log w' = log w ++ batch_events mpf_plot os_path_join k d ts ∧
        ∀ l x, heap w !! l = Some x → heap w' !! l = Some x.
Proof.
  induction ts as [|t ts IH]; intros w Hd.
  { exists w. split; [done |]. split; [by rewrite app_nil_r | done]. }
  destruct (chart_ticker_run k df t w d Hd) as (w1 & Hrun & Hlog & Hfr).
  cbn [for_each batch_result batch_events]. unfold mbind, M_bind. rewrite Hrun.
  destruct (chart_result d t) as [[] | e].
  - destruct (IH w1 (Hfr _ _ Hd)) as (w2 & Hrun2 & Hlog2 & Hfr2).
    exists w2. split; [done |]. split; [| by auto].
    by rewrite Hlog2, Hlog, <- app_assoc.
  - exists w1. split; [done |]. split; [| done]. by rewrite app_nil_r.
Qed.

Lemma generate_candlestick_charts_run k df d ts w :
  heap w !! df = Some d →
  ∃ w', generate_candlestick_charts_with mpf_plot os_path_join k df ts w
        = (batch_result d ts, w') ∧
        log w' = log w ++
                 Printed ("Generating charts for " +:+ str_nat (length ts)
                          +:+ " tickers...")
                 :: batch_events mpf_plot os_path_join k d ts ∧
        ∀ l x, heap w !! l = Some x → heap w' !! l = Some x.
Proof.
  intros Hd. unfold generate_candlestick_charts_with.
  unfold mbind at 1, M_bind at 1, print, emit.
  destruct (for_each_run k df d ts
              {| heap := heap w;
                 log := log w ++ [Printed ("Generating charts for "
                                           +:+ str_nat (length ts)
                                           +:+ " tickers...")] |} Hd)
    as (w' & Hrun & Hlog & Hfr).
  exists w'. split; [done |]. split; [| done].
  rewrite Hlog. cbn [log]. by rewrite <- app_assoc.
Qed.

End ChartFacts.

(** The tables handed to the plot, and how the batch ends, do not depend
    on what the plotting library does with them. *)
Lemma plot_calls_app evs1 evs2 :
  plot_calls (evs1 ++ evs2) = plot_calls evs1 ++ plot_calls evs2.
Proof. apply List.filter_app. Qed.

Lemma plot_calls_batch_events plot1 plot2 os_path_join k d ts :
  plot_calls (batch_events plot1 os_path_join k d ts)
  = plot_calls (batch_events plot2 os_path_join k d ts).
Proof.
  induction ts as [|t ts IH]; [done |].
  cbn [batch_events]. rewrite !plot_calls_app. f_equal.
  - unfold chart_events. destruct (project d t) as [clean |]; [| done].
    destruct (Pd.empty clean); [done |].
    cbn. by destruct (plot1 _ _ _), (plot2 _ _ _).
  - by destruct (chart_result d t).
Qed.

(** *** Selecting the columns of a ticker *)

Lemma find_none_all {A} (f : A → bool) (l : list A) :
  (∀ x, x ∈ l → f x = false) → List.find f l = None.
Proof.
  induction l as [|x l IH]; intros H; [done |].
  simpl. rewrite (H x) by left. apply IH. intros y Hy. apply H. by right.
Qed.

Lemma cells_where_none {L A} (q : L → bool) (cols : list L) (r : list A) :
  (∀ c, c ∈ cols → q c = false) → Pd.cells_where q cols r = [].
Proof.
  revert r. induction cols as [|c cols IH]; intros [|x r] H; try done.
  simpl. rewrite (H c) by left. apply IH. intros c' Hc'. apply H. by right.
Qed.

Lemma cells_where_nil_row {L A} (q : L → bool) (cols : list L) :
  Pd.cells_where q cols (@nil A) = [].
Proof. by destruct cols. Qed.

Lemma flat_map_ext_elem {A B} (g h : A → list B) (l : list A) :
  (∀ x, x ∈ l → g x = h x) → flat_map g l = flat_map h l.
Proof.
  induction l as [|x l IH]; intros H; [done |].
  simpl. rewrite (H x) by left. f_equal. apply IH. intros y Hy. apply H. by right.
Qed.

(** With distinct column names, selecting by the names that satisfy [p]
    is selecting the columns that satisfy [p]. *)
Lemma cells_named_filter {A} (p : string → bool) (cols : list string) :
  NoDup cols → ∀ r : list A,
  flat_map (λ c, Pd.cells_where (String.eqb c) cols r) (List.filter p cols)
  = Pd.cells_where p cols r.
Proof.
  induction 1 as [|c cols Hc Hnd IH]; intros r; [done |].
  destruct r as [|x r].
  { cbn [Pd.cells_where]. by induction (List.filter p (c :: cols)). }
  assert (∀ c', c' ∈ List.filter p cols →
                Pd.cells_where (String.eqb c') (c :: cols) (x :: r)
                = Pd.cells_where (String.eqb c') cols r) as Hother.
  { intros c' Hc'. apply list_elem_of_In, filter_In in Hc' as [Hc' _].
    apply list_elem_of_In in Hc'. simpl.
    destruct (String.eqb_spec c' c) as [-> | ?]; [done | done]. }
  cbn [List.filter]. destruct (p c) eqn:Ep.
  - cbn [flat_map]. rewrite (flat_map_ext_elem _ _ _ Hother), IH.
    simpl. rewrite String.eqb_refl, Ep. rewrite cells_where_none; [done |].
    intros c' Hc'. apply String.eqb_neq. by intros ->.
  - rewrite (flat_map_ext_elem _ _ _ Hother), IH. simpl. by rewrite Ep.
Qed.

Lemma cells_where_columns (p : string → bool) (cols : list string) :
  Pd.cells_where p cols cols = List.filter p cols.
Proof.
  induction cols as [|c cols IH]; [done |]. simpl. rewrite IH. by destruct (p c).
Qed.

Lemma getitem_filter (p : string → bool) (d : DataFrame string) :
  NoDup (columns d) →
  Pd.getitem (List.filter p (columns d)) d
  = Ok {| columns := List.filter p (columns d);
          rows := map (λ dr, (dr.1, Pd.cells_where p (columns d) dr.2)) (rows d) |}.
Proof.
  intros Hnd. unfold Pd.getitem. rewrite find_none_all.
  - unfold Pd.take_columns. rewrite !flat_map_concat_map, !map_map,
      <- !flat_map_concat_map. f_equal. f_equal.
    + by rewrite cells_named_filter, cells_where_columns.
    + apply map_ext. intros [dt r]. cbn [fst snd].
      by rewrite flat_map_concat_map, map_map, <- flat_map_concat_map,
        cells_named_filter.
  - intros c Hc. apply negb_false_iff, existsb_exists. exists c.
    apply list_elem_of_In, filter_In in Hc as [Hc _].
    split; [done | apply String.eqb_refl].
Qed.

Lemma filter_map_comm {A B} (q : B → bool) (g : A → B) (l : list A) :
  List.filter q (map g l) = map g (List.filter (λ x, q (g x)) l).
Proof.
  induction l as [|x l IH]; [done |]. simpl. rewrite IH. by destruct (q (g x)).
Qed.

Lemma project_as_names names d t :
  NoDup (columns d) →
  project_as names d t
  = if Nat.eqb (length names) (length (ticker_columns d t))
    then Ok {| columns := names; rows := ticker_rows d t |}
    else Raise (ValueError "Length mismatch").
Proof.
  intros Hnd. unfold project_as, ticker_columns. rewrite getitem_filter by done.
  unfold Pd.set_columns. cbn [columns rows].
  destruct (Nat.eqb _ _); [| done].
  unfold Pd.dropna, ticker_rows, complete_rows. cbn [columns rows].
  by rewrite filter_map_comm.
Qed.

(** *** The rows that are plotted *)

Lemma last_drop_lt {A} (l : list A) n :
  (n < length l)%nat → last (drop n l) = last l.
Proof.
  intros Hn. rewrite <- (take_drop n l) at 2. rewrite last_app.
  destruct (last (drop n l)) eqn:E; [done |].
  apply last_None in E. apply (f_equal length) in E.
  rewrite length_drop in E. simpl in E. lia.
Qed.

Lemma max_date_sorted (l : list Date) :
  StronglySorted Z.lt l → max_date l = last l.
Proof.
  unfold Date. induction 1 as [|d l _ IH Hd]; [done |].
  simpl. rewrite IH, last_cons. destruct (last l) as [m |] eqn:E; [| done].
  apply last_Some_elem_of in E. rewrite Forall_forall in Hd.
  specialize (Hd m E). f_equal. lia.
Qed.

Lemma StronglySorted_filter_rows (q : Date * list cell → bool) rs :
  StronglySorted Z.lt (map fst rs) →
  StronglySorted Z.lt (map fst (List.filter q rs)).
Proof.
  induction rs as [|dr rs IH]; [done |].
  intros H. inversion H as [|? ? Hs Hd]; subst. simpl.
  destruct (q dr); [| by apply IH]. simpl. constructor; [by apply IH |].
  rewrite Forall_forall in *. intros x Hx. apply Hd.
  change (map fst ?l) with (fst <$> l) in *.
  apply list_elem_of_fmap in Hx as (y & -> & Hy). apply list_elem_of_fmap.
  exists y. split; [done |].
  apply list_elem_of_In. apply list_elem_of_In, filter_In in Hy. tauto.
Qed.

Lemma index_ticker_rows d t : map fst (ticker_rows d t) = map fst (complete_rows d t).
Proof. unfold ticker_rows. by rewrite map_map. Qed.

Section ChartClaims.

Variable mpf_plot : DataFrame string → string → option string → option exn.
Variable plt_show : DataFrame string → option exn.
Variable os_path_join : string → string → string.
Variable in_kernel : bool.

Lemma for_each_cons_Ok k df t ts w w' :
  chart_ticker mpf_plot os_path_join k df t w = (Ok tt, w') →
  for_each (chart_ticker mpf_plot os_path_join k df) (t :: ts) w
  = for_each (chart_ticker mpf_plot os_path_join k df) ts w'.
Proof. intros H. cbn [for_each]. unfold mbind, M_bind. by rewrite H. Qed.

(** C4 (as the code has it): for a ticker for which exactly four columns
    are selected and that has at least one complete row, in a table of
    distinct column names and ascending dates, one iteration with row
    limit [k]
    hands the plot a table of the four canonical columns whose rows are
    the last [min k n] of the [n] complete rows of the ticker; for a
    positive [k], the largest date plotted is the largest date of the
    complete rows. *)
Theorem chart_ticker_latest_rows (k df : nat) (t : string) (w : world)
    (d : DataFrame string) :
  heap w !! df = Some d →
  NoDup (columns d) →
  StronglySorted Z.lt (Pd.index d) →
  length (ticker_columns d t) = 4%nat →
  complete_rows d t ≠ [] →
  ∃ data outcome w',
    chart_ticker mpf_plot os_path_join k df t w = (Ok tt, w') ∧
    log w' = log w ++
             [Printed ("Creating chart for " +:+ t +:+ "...");
              MpfPlot data ("Candlestick Chart: " +:+ t)
                (Some (os_path_join charts_dir (t +:+ ".png")));
              Printed outcome] ∧
    columns data = ohlc ∧
    length (rows data) = Nat.min k (length (complete_rows d t)) ∧
    rows data = drop (length (complete_rows d t) - k) (ticker_rows d t) ∧
    (∀ m, max_date (Pd.index data) = Some m →
          max_date (map fst (complete_rows d t)) = Some m) ∧
    ((0 < k)%nat →
     max_date (Pd.index data) = max_date (map fst (complete_rows d t))).
Proof.
  intros Hd Hnd Hsort Hcols Hrows.
  destruct (chart_ticker_run mpf_plot os_path_join k df t w d Hd)
    as (w' & Hrun & Hlog & _).
  unfold chart_result, chart_events, project in *.
  rewrite project_as_names in * by done. rewrite Hcols in *. cbn [Nat.eqb length ohlc] in *.
  assert (ticker_rows d t ≠ []) as Hne.
  { unfold ticker_rows. by destruct (complete_rows d t). }
  assert (Pd.empty {| columns := ohlc; rows := ticker_rows d t |} = false) as He.
  { apply empty_false. by split. }
  rewrite He in Hlog.
  assert (length (ticker_rows d t) = length (complete_rows d t)) as Hlen.
  { unfold ticker_rows. by rewrite length_map. }
  assert (StronglySorted Z.lt (map fst (complete_rows d t))) as Hs.
  { by apply StronglySorted_filter_rows. }
  assert (Pd.index (Pd.tail k {| columns := ohlc; rows := ticker_rows d t |})
          = drop (length (complete_rows d t) - k) (map fst (complete_rows d t)))
    as Hidx.
  { unfold Pd.index, Pd.tail. cbn [rows]. rewrite Hlen.
    change (map fst ?l) with (fst <$> l). rewrite fmap_drop.
    f_equal. apply index_ticker_rows. }
  assert ((0 < k)%nat →
          max_date (drop (length (complete_rows d t) - k) (map fst (complete_rows d t)))
          = max_date (map fst (complete_rows d t))) as Hmax.
  { intros Hk. rewrite !max_date_sorted; [| done |].
    - apply last_drop_lt. rewrite length_map.
      destruct (complete_rows d t); [done | simpl; lia].
    - rewrite <- (take_drop (length (complete_rows d t) - k)) in Hs.
      by apply StronglySorted_app_1_r in Hs. }
  exists (Pd.tail k {| columns := ohlc; rows := ticker_rows d t |}),
    (match mpf_plot (Pd.tail k {| columns := ohlc; rows := ticker_rows d t |})
             ("Candlestick Chart: " +:+ t)
             (Some (os_path_join charts_dir (t +:+ ".png"))) with
     | Some e => "Failed to generate candlestick chart for " +:+ t
                 +:+ ": " +:+ str_exn e
     | None => "Candlestick chart saved: " +:+ os_path_join charts_dir (t +:+ ".png")
     end), w'.
  split; [exact Hrun |]. split.
  { rewrite Hlog. by destruct (mpf_plot _ _ _). }
  split; [done |]. split.
  { unfold Pd.tail. cbn [rows]. rewrite length_drop, Hlen. lia. }
  split; [unfold Pd.tail; cbn [rows]; by rewrite Hlen |].
  rewrite Hidx. split; [| done].
  intros m Hm. destruct k as [|k].
  - rewrite Nat.sub_0_r, <- (length_map fst), drop_all in Hm. done.
  - rewrite <- Hmax by lia. done.
Qed.


(** C7: when the plotting library raises for a ticker, the iteration
    of the batch loop prints the failure and ends normally, so the loop
    goes on with the remaining tickers; in [update_chart] a failure of
    [mpf.plot] or of [plt.show] is printed as a message and the handler
    ends normally.  For every list of tickers, the batch ends as it does
    with a plotting library that never fails, after the same calls of
    [mpf.plot]. *)
Theorem render_failure_is_isolated (k df : nat) (t : string) (w : world)
    (d : DataFrame string) :
  heap w !! df = Some d →
  (∀ clean e,
     project d t = Ok clean → Pd.empty clean = false →
     mpf_plot (Pd.tail k clean) ("Candlestick Chart: " +:+ t)
       (Some (os_path_join charts_dir (t +:+ ".png"))) = Some e →
     ∃ w', chart_ticker mpf_plot os_path_join k df t w = (Ok tt, w') ∧
           log w' = log w ++
                    [Printed ("Creating chart for " +:+ t +:+ "...");
                     MpfPlot (Pd.tail k clean) ("Candlestick Chart: " +:+ t)
                       (Some (os_path_join charts_dir (t +:+ ".png")));
                     Printed ("Failed to generate candlestick chart for " +:+ t
                              +:+ ": " +:+ str_exn e)] ∧
           ∀ ts, for_each (chart_ticker mpf_plot os_path_join k df) (t :: ts) w
                 = for_each (chart_ticker mpf_plot os_path_join k df) ts w') ∧
  (∀ clean e,
     (4 ≤ length (ticker_columns d t))%nat →
     project_selected d t = Ok clean → Pd.empty clean = false →
     mpf_plot clean ("Candlestick Chart: " +:+ t) None = Some e ∨
     (mpf_plot clean ("Candlestick Chart: " +:+ t) None = None ∧
      plt_show clean = Some e) →
     ∃ w' shown,
       update_chart mpf_plot plt_show in_kernel df t w = (Ok tt, w') ∧
       (shown = [] ∨ shown = [PltShow]) ∧
       log w' = log w ++
                [ClearOutput;
                 Printed ("Generating chart for " +:+ t +:+ "...");
                 MpfPlot clean ("Candlestick Chart: " +:+ t) None] ++
                shown ++
                [Printed ("Error plotting chart for " +:+ t
                          +:+ ": " +:+ str_exn e)]) ∧
  (∀ tickers,
     (generate_candlestick_charts_with mpf_plot os_path_join k df tickers w).1
     = (generate_candlestick_charts_with plot_fine os_path_join k df tickers w).1 ∧
     plot_calls
       (log (generate_candlestick_charts_with mpf_plot os_path_join k df tickers w).2)
     = plot_calls
         (log (generate_candlestick_charts_with plot_fine os_path_join k df tickers w).2)).
Proof.
  intros Hd. split; [| split].
  - intros clean e Hp He Hplot.
    destruct (chart_ticker_run mpf_plot os_path_join k df t w d Hd)
      as (w' & Hrun & Hlog & _).
    unfold chart_result, chart_events in *. rewrite Hp, He, Hplot in *.
    exists w'. split; [done |]. split; [done |].
    intros ts. by apply for_each_cons_Ok.
  - intros clean e Hlen Hp He Hfail.
    destruct (update_chart_run mpf_plot plt_show in_kernel df t w d Hd)
      as (w' & Hrun & Hlog & _).
    unfold update_result, update_events in *.
    apply Nat.ltb_ge in Hlen. rewrite Hlen, Hp, He in *.
    destruct Hfail as [Hplot | [Hplot Hshow]].
    + rewrite Hplot in Hlog. exists w', []. split; [done |]. split; [by left | done].
    + rewrite Hplot, Hshow in Hlog. exists w', [PltShow].
      split; [done |]. split; [by right | done].
  - intros tickers.
    destruct (generate_candlestick_charts_run mpf_plot os_path_join k df d tickers w Hd)
      as (w1 & Hrun1 & Hlog1 & _).
    destruct (generate_candlestick_charts_run plot_fine os_path_join k df d tickers w Hd)
      as (w2 & Hrun2 & Hlog2 & _).
    rewrite Hrun1, Hrun2. cbn [fst snd]. split; [done |].
    rewrite Hlog1, Hlog2, !plot_calls_app. f_equal.
    cbn [plot_calls List.filter].
    apply (plot_calls_batch_events mpf_plot plot_fine).
Qed.

(** C9: whatever the batch function and the dropdown handler do, every
    table that existed before the call, the wide table [df] among them,
    is the same object with the same contents after it: the statements
    that work in place work on tables created during the call. *)
Theorem source_table_unchanged (k df : nat) (tickers : list string) (t : string)
    (w : world) (d : DataFrame string) :
  heap w !! df = Some d →
  heap (generate_candlestick_charts_with mpf_plot os_path_join k df tickers w).2
    !! df = Some d ∧
  heap (update_chart mpf_plot plt_show in_kernel df t w).2 !! df = Some d ∧
  ∀ l x, heap w !! l = Some x →
         heap (generate_candlestick_charts_with mpf_plot os_path_join k df tickers w).2
           !! l = Some x ∧
         heap (update_chart mpf_plot plt_show in_kernel df t w).2 !! l = Some x.
Proof.
  intros Hd.
  destruct (generate_candlestick_charts_run mpf_plot os_path_join k df d tickers w Hd)
    as (w1 & Hrun1 & _ & Hfr1).
  destruct (update_chart_run mpf_plot plt_show in_kernel df t w d Hd)
    as (w2 & Hrun2 & _ & Hfr2).
  rewrite Hrun1, Hrun2. cbn [snd]. auto.
Qed.

(** C5: for a ticker with fewer than four columns in the table, the
    batch function raises [ValueError] when it renames the columns,
    before the plot and outside the [try]: the loop ends there and the
    tickers that follow are never reached.  [update_chart] on the same
    table prints that the data is insufficient and ends normally. *)
Theorem batch_has_no_column_guard (k df : nat) (t : string) (ts : list string)
    (w : world) (d : DataFrame string) :
  heap w !! df = Some d →
  NoDup (columns d) →
  (length (ticker_columns d t) < 4)%nat →
  (∃ w', generate_candlestick_charts_with mpf_plot os_path_join k df (t :: ts) w
         = (Raise (ValueError "Length mismatch"), w') ∧
         log w' = log w ++
                  [Printed ("Generating charts for " +:+ str_nat (length (t :: ts))
                            +:+ " tickers...");
                   Printed ("Creating chart for " +:+ t +:+ "...")]) ∧
  (∃ w', update_chart mpf_plot plt_show in_kernel df t w = (Ok tt, w') ∧
         log w' = log w ++
                  [ClearOutput;
                   Printed ("Generating chart for " +:+ t +:+ "...");
                   Printed ("Insufficient data for " +:+ t
                            +:+ ". Required columns: Open, High, Low, Close.")]).
Proof.
  intros Hd Hnd Hlt. split.
  - destruct (generate_candlestick_charts_run mpf_plot os_path_join k df d (t :: ts) w Hd)
      as (w' & Hrun & Hlog & _).
    cbn [batch_result batch_events] in *.
    unfold chart_result, chart_events, project in *.
    rewrite project_as_names in * by done.
    assert (Nat.eqb (length ohlc) (length (ticker_columns d t)) = false) as E.
    { apply Nat.eqb_neq. cbn [length ohlc]. lia. }
    rewrite E in *. by exists w'.
  - destruct (update_chart_run mpf_plot plt_show in_kernel df t w d Hd)
      as (w' & Hrun & Hlog & _).
    unfold update_result, update_events in *.
    apply Nat.ltb_lt in Hlt. rewrite Hlt in *. by exists w'.
Qed.

End ChartClaims.

(** *** The claims on the scenario of the specification *)

Lemma scenario_table_columns : NoDup (columns scenario_table).
Proof. apply (bool_decide_unpack _). by vm_compute. Qed.

Lemma scenario_table_sorted : StronglySorted Z.lt (Pd.index scenario_table).
Proof. apply (bool_decide_unpack _). by vm_compute. Qed.

Example project_scenario_AAA : project scenario_table "AAA" = Ok aaa_table.
Proof. reflexivity. Qed.

Lemma chart_ticker_latest_rows_scenario :
  ∃ data outcome w',
    chart_ticker plot_fine posix_join 2 0 "AAA" scenario_world = (Ok tt, w') ∧
    log w' = log scenario_world ++
             [Printed ("Creating chart for " +:+ "AAA" +:+ "...");
              MpfPlot data ("Candlestick Chart: " +:+ "AAA")
                (Some (posix_join charts_dir ("AAA" +:+ ".png")));
              Printed outcome] ∧
    columns data = ohlc ∧
    length (rows data) = Nat.min 2 (length (complete_rows scenario_table "AAA")) ∧
    rows data = drop (length (complete_rows scenario_table "AAA") - 2)
                  (ticker_rows scenario_table "AAA") ∧
    (∀ m, max_date (Pd.index data) = Some m →
          max_date (map fst (complete_rows scenario_table "AAA")) = Some m) ∧
    ((0 < 2)%nat →
     max_date (Pd.index data)
     = max_date (map fst (complete_rows scenario_table "AAA"))).
Proof.
  apply (chart_ticker_latest_rows plot_fine posix_join 2 0 "AAA"
           scenario_world scenario_table).
  - reflexivity.
  - apply scenario_table_columns.
  - apply scenario_table_sorted.
  - reflexivity.
  - vm_compute. discriminate.
Defined.

(** C4, counterexample: in the table merged from the tickers A and B_A,
    with two dates and every price present, A has two complete rows, but
    the eight columns of both tickers end in _A: the iteration for A
    raises [ValueError] when it renames them, and hands nothing to the
    plot. *)
Lemma chart_ticker_surplus_columns :
  merge clash ["A"; "B_A"] = Ok clash_table ∧
  rows (prices (clash "A")) = [(1%Z, [10; 10; 10; 10]%float);
                               (2%Z, [10; 10; 10; 10]%float)] ∧
  length (ticker_columns clash_table "A") = 8%nat ∧
  length (complete_rows clash_table "A") = 2%nat ∧
  (chart_ticker plot_fine posix_join 500 0 "A" clash_world).1
  = Raise (ValueError "Length mismatch") ∧
  log (chart_ticker plot_fine posix_join 500 0 "A" clash_world).2
  = [Printed "Creating chart for A..."].
Proof. repeat split; vm_compute; reflexivity. Qed.



Lemma render_failure_is_isolated_scenario :
  (∃ w', chart_ticker plot_down posix_join 500 0 "AAA" scenario_world = (Ok tt, w') ∧
         log w' = log scenario_world ++
                  [Printed ("Creating chart for " +:+ "AAA" +:+ "...");
                   MpfPlot (Pd.tail 500 aaa_table) ("Candlestick Chart: " +:+ "AAA")
                     (Some (posix_join charts_dir ("AAA" +:+ ".png")));
                   Printed ("Failed to generate candlestick chart for " +:+ "AAA"
                            +:+ ": " +:+ str_exn (Exception "no display"))] ∧
         ∀ ts, for_each (chart_ticker plot_down posix_join 500 0) ("AAA" :: ts)
                 scenario_world
               = for_each (chart_ticker plot_down posix_join 500 0) ts w') ∧
  (∃ w' shown,
     update_chart plot_down show_fine true 0 "AAA" scenario_world = (Ok tt, w') ∧
     (shown = [] ∨ shown = [PltShow]) ∧
     log w' = log scenario_world ++
              [ClearOutput;
               Printed ("Generating chart for " +:+ "AAA" +:+ "...");
               MpfPlot aaa_table ("Candlestick Chart: " +:+ "AAA") None] ++
              shown ++
              [Printed ("Error plotting chart for " +:+ "AAA"
                        +:+ ": " +:+ str_exn (Exception "no display"))]) ∧
  (∀ tickers,
     (generate_candlestick_charts_with plot_down posix_join 500 0 tickers
        scenario_world).1
     = (generate_candlestick_charts_with plot_fine posix_join 500 0 tickers
          scenario_world).1 ∧
     plot_calls
       (log (generate_candlestick_charts_with plot_down posix_join 500 0 tickers
               scenario_world).2)
     = plot_calls
         (log (generate_candlestick_charts_with plot_fine posix_join 500 0 tickers
                 scenario_world).2)).
Proof.
  destruct (render_failure_is_isolated plot_down show_fine posix_join true 500 0 "AAA"
              scenario_world scenario_table eq_refl) as (Hbatch & Hupdate & Hall).
  split; [| split; [| exact Hall]].
  - apply (Hbatch aaa_table (Exception "no display")); reflexivity.
  - apply (Hupdate aaa_table (Exception "no display")).
    + vm_compute. lia.
    + reflexivity.
    + reflexivity.
    + left. reflexivity.
Defined.

Lemma source_table_unchanged_scenario :
  heap (generate_candlestick_charts_with plot_down posix_join 500 0
          ["AAA"; "CCC"; "BBB"] scenario_world).2 !! 0%nat = Some scenario_table ∧
  heap (update_chart plot_down show_fine true 0 "AAA" scenario_world).2 !! 0%nat
  = Some scenario_table ∧
  ∀ l x, heap scenario_world !! l = Some x →
         heap (generate_candlestick_charts_with plot_down posix_join 500 0
                 ["AAA"; "CCC"; "BBB"] scenario_world).2 !! l = Some x ∧
         heap (update_chart plot_down show_fine true 0 "AAA" scenario_world).2 !! l = Some x.
Proof.
  apply (source_table_unchanged plot_down show_fine posix_join true 500 0
           ["AAA"; "CCC"; "BBB"] "AAA" scenario_world scenario_table).
  reflexivity.
Defined.

(** ** From the merge to the charts *)

Section SuffixFacts.

#[local] Arguments String.append !_ _ / : simpl nomatch.

Lemma endswith_no_sep c p s :
  Py.contains c s = false → Py.endswith (String c p) s = false.
Proof.
  induction s as [|x s IH]; [done |]. simpl.
  intros [Hx Hs]%orb_false_iff. rewrite (IH Hs), orb_false_r.
  rewrite Ascii.eqb_sym, Hx. done.
Qed.

Lemma contains_append_sep c a b : Py.contains c (a +:+ String c b) = true.
Proof.
  induction a as [|x a IH]; simpl; [by rewrite Ascii.eqb_refl |].
  by rewrite IH, orb_true_r.
Qed.

(** A column selected for a ticker without separator is a column of that
    ticker, when the tickers in the table hold no separator either. *)
Lemma endswith_sep_append a t t' :
  Py.contains sep t = false → Py.contains sep t' = false →
  Py.endswith (String sep t) (a +:+ String sep t') = String.eqb t t'.
Proof.
  intros Ht Ht'. induction a as [|x a IH].
  - simpl. by rewrite (endswith_no_sep sep t t' Ht'), orb_false_r.
  - cbn [String.append Py.endswith]. rewrite IH.
    destruct (String.eqb_spec (String sep t) (String x (a +:+ String sep t')))
      as [E | _]; [| done].
    injection E as _ ->. by rewrite contains_append_sep in Ht.
Qed.

End SuffixFacts.

Lemma filter_flat_map {A B} (p : B → bool) (g : A → list B) (l : list A) :
  List.filter p (flat_map g l) = flat_map (λ x, List.filter p (g x)) l.
Proof.
  induction l as [|x l IH]; [done |]. simpl. by rewrite List.filter_app, IH.
Qed.

Lemma ticker_columns_prepared download t t' :
  Py.contains sep t = false → Py.contains sep t' = false →
  List.filter (Py.endswith (String sep t)) (columns (prepared download t'))
  = if String.eqb t t' then columns (prepared download t') else [].
Proof.
  intros Ht Ht'. unfold prepared. cbn [columns ohlc map List.filter].
  unfold column_name. rewrite !endswith_sep_append by done.
  by destruct (String.eqb t t').
Qed.

Lemma ticker_columns_wide download tickers t :
  NoDup tickers → t ∈ tickers →
  (∀ t', t' ∈ tickers → Py.contains sep t' = false) →
  ticker_columns (wide (map (prepared download) tickers)) t
  = columns (prepared download t).
Proof.
  intros Hnd Ht Hsep. unfold ticker_columns, wide. cbn [columns].
  rewrite filter_flat_map. pose proof (Hsep t Ht) as Hts.
  induction Hnd as [|t' ts Hnotin Hnd IH]; [by apply elem_of_nil in Ht |].
  cbn [map flat_map].
  rewrite ticker_columns_prepared by (try done; apply Hsep; left).
  apply elem_of_cons in Ht as [<- | Ht].
  - rewrite String.eqb_refl.
    assert (flat_map (λ f, List.filter (Py.endswith (String sep t)) (columns f))
              (map (prepared download) ts) = []) as ->; [| by rewrite app_nil_r].
    transitivity (flat_map (λ _ : DataFrame string, @nil string)
                    (map (prepared download) ts)).
    + apply flat_map_ext_elem.
      intros f [t2 [-> Ht2]]%list_elem_of_fmap.
      rewrite ticker_columns_prepared by (try done; apply Hsep; by right).
      destruct (String.eqb_spec t t2) as [-> | ?]; done.
    + clear. by induction (map _ ts).
  - destruct (String.eqb_spec t t') as [-> | _]; [done |].
    apply IH; [done |]. intros. apply Hsep. by right.
Qed.

(** The table the merge builds from Series of tickers without separator
    is a table the chart functions can project: its column names are
    distinct, its dates ascend, and every ticker selects its own four
    columns. *)
Lemma merge_WideTable download tickers :
  NoDup tickers →
  (∀ t, t ∈ tickers → Series t (download t) ∧ Py.contains sep t = false) →
  (∀ t, head tickers = Some t → rows (download t) ≠ []) →
  ∃ wt, merge download tickers = Ok wt ∧
        NoDup (columns wt) ∧
        StronglySorted Z.lt (Pd.index wt) ∧
        ∀ t, t ∈ tickers →
             ticker_columns wt t = map (λ field, column_name (field, t) t) ohlc.
Proof.
  intros Hnd H Hhd. exists (wide (map (prepared download) tickers)).
  split; [apply merge_wide; [done | intros; by apply H | done] |].
  split; [by apply prepared_columns_NoDup |].
  split; [rewrite index_wide; apply date_union_sorted |].
  intros t Ht. rewrite ticker_columns_wide; [done .. |]. intros. by apply H.
Qed.

(** The date column that [reset_index] adds before the table is saved
    does not start with a parenthesis: the extractor ignores it. *)
Lemma extract_tickers_Date cols :
  extract_tickers ("Date" :: cols) = extract_tickers cols.
Proof. done. Qed.

(** The concrete scenario of the specification. *)
Example scenario_merge :
  ∃ wt bbb,
    merge scenario ["AAA"; "BBB"] = Ok wt ∧
    Pd.index wt = [1; 2; 3; 4]%Z ∧
    cell_at wt 1%Z (column_name ("Open", "AAA") "AAA") = Some 10%float ∧
    cell_at wt 1%Z (column_name ("Open", "BBB") "BBB") = Some NaN ∧
    cell_at wt 4%Z (column_name ("Close", "AAA") "AAA") = Some NaN ∧
    cell_at wt 4%Z (column_name ("Close", "BBB") "BBB") = Some 20%float ∧
    project wt "AAA" = Ok aaa_table ∧
    project wt "BBB" = Ok bbb ∧
    Pd.index bbb = [2; 3; 4]%Z.
Proof.
  do 2 eexists. split; [vm_compute; reflexivity |].
  do 6 (split; [vm_compute; reflexivity |]).
  split; vm_compute; reflexivity.
Qed.

Lemma partial_table_columns : NoDup (columns partial_table).
Proof. apply (bool_decide_unpack _). by vm_compute. Qed.

(** C5 on the table in which XXX has lost its Close column: the batch
    stops at XXX and AAA, next in the list, is never reached. *)
Lemma batch_has_no_column_guard_partial :
  (∃ w', generate_candlestick_charts_with plot_fine posix_join 500 0 ["XXX"; "AAA"]
           partial_world
         = (Raise (ValueError "Length mismatch"), w') ∧
         log w' = log partial_world ++
                  [Printed ("Generating charts for "
                            +:+ str_nat (length ["XXX"; "AAA"]) +:+ " tickers...");
                   Printed ("Creating chart for " +:+ "XXX" +:+ "...")]) ∧
  (∃ w', update_chart plot_fine show_fine true 0 "XXX" partial_world = (Ok tt, w') ∧
         log w' = log partial_world ++
                  [ClearOutput;
                   Printed ("Generating chart for " +:+ "XXX" +:+ "...");
                   Printed ("Insufficient data for " +:+ "XXX"
                            +:+ ". Required columns: Open, High, Low, Close.")]).
Proof.
  apply (batch_has_no_column_guard plot_fine show_fine posix_join true 500 0 "XXX" ["AAA"]
           partial_world partial_table).
  - reflexivity.
  - apply partial_table_columns.
  - vm_compute. lia.
Defined.

Example partial_table_batch :
  (generate_candlestick_charts plot_fine posix_join 0 ["XXX"; "AAA"] partial_world).1
  = Raise (ValueError "Length mismatch") ∧
  log (generate_candlestick_charts plot_fine posix_join 0 ["XXX"; "AAA"]
         partial_world).2
  = [Printed "Generating charts for 2 tickers...";
     Printed "Creating chart for XXX..."].
Proof. split; vm_compute; reflexivity. Qed.

(** * Further properties of the code *)

(** ** The merge loop *)

Lemma clash_Series t : Series t (clash t).
Proof.
  unfold clash. repeat case_match; apply yf_table_Series;
    repeat constructor; done.
Qed.

(** X1: the column names of the loop are free of collisions: two price
    fields and tickers that give the same column name are the same field
    and the same ticker, whatever characters the tickers hold. *)
Theorem column_name_collision_free (f1 f2 t1 t2 : string) :
  f1 ∈ ohlc → f2 ∈ ohlc →
  column_name (f1, t1) t1 = column_name (f2, t2) t2 →
  f1 = f2 ∧ t1 = t2.
Proof. apply column_name_inj. Qed.

Lemma column_name_collision_free_BRK :
  "Low" = "Low" ∧ "BRK_B" = "BRK_B".
Proof.
  apply (column_name_collision_free "Low" "Low" "BRK_B" "BRK_B").
  - set_solver.
  - set_solver.
  - reflexivity.
Defined.

Lemma length_prepared_columns download tickers :
  length (flat_map columns (map (prepared download) tickers))
  = (4 * length tickers)%nat.
Proof.
  induction tickers as [|t ts IH]; [done |].
  cbn [map flat_map]. rewrite length_app, IH. cbn [prepared columns ohlc map length]. lia.
Qed.

(** X2: for distinct tickers whose downloads are Series, the first with
    rows, the merged table has four columns per ticker, all of different
    names, and is rectangular: every row has one cell per column. *)
Theorem merge_rectangular
    (download : string → DataFrame (string * string)) (tickers : list string) :
  NoDup tickers →
  (∀ t, t ∈ tickers → Series t (download t)) →
  (∀ t, head tickers = Some t → rows (download t) ≠ []) →
  ∃ wt, merge download tickers = Ok wt ∧
        NoDup (columns wt) ∧
        length (columns wt) = (4 * length tickers)%nat ∧
        Forall (λ dr, length dr.2 = length (columns wt)) (rows wt).
Proof.
  intros Hnd Hser Hhd. exists (wide (map (prepared download) tickers)).
  split; [by apply merge_wide |].
  split; [by apply prepared_columns_NoDup |].
  split; [apply length_prepared_columns |].
  unfold wide. cbn [rows columns]. apply Forall_map, Forall_forall.
  intros d _. cbn [snd]. rewrite length_prepared_columns.
  clear Hnd Hhd. induction tickers as [|t ts IH]; [done |].
  cbn [map flat_map]. rewrite length_app, row_or_nan_width by (apply Hser; left).
  rewrite IH by (intros; apply Hser; by right).
  cbn [prepared columns ohlc map length]. lia.
Qed.

Lemma merge_rectangular_scenario :
  ∃ wt, merge scenario ["AAA"; "CCC"; "BBB"] = Ok wt ∧
        NoDup (columns wt) ∧
        length (columns wt) = (4 * length ["AAA"; "CCC"; "BBB"])%nat ∧
        Forall (λ dr, length dr.2 = length (columns wt)) (rows wt).
Proof.
  apply (merge_rectangular scenario ["AAA"; "CCC"; "BBB"]).
  - repeat constructor; set_solver.
  - intros t _. apply scenario_Series.
  - intros t [= <-]. done.
Defined.

Lemma merge_loop_app download l1 l2 : ∀ acc,
  merge_loop download acc (l1 ++ l2)
  = match merge_loop download acc l1 with
    | Ok acc' => merge_loop download acc' l2
    | Raise e => Raise e
    end.
Proof.
  induction l1 as [|t l1 IH]; intros acc; [done |].
  cbn [app merge_loop]. by destruct (merge_step download acc t).
Qed.

Lemma merge_loop_empty_acc download acc acc' tickers :
  Pd.empty acc = true → Pd.empty acc' = true → tickers ≠ [] →
  merge_loop download acc tickers = merge_loop download acc' tickers.
Proof.
  intros H H' Hne. destruct tickers as [|t ts]; [done |].
  cbn [merge_loop]. unfold merge_step. by rewrite H, H'.
Qed.

Lemma merge_loop_empty_prefix download pre : ∀ acc,
  Pd.empty acc = true →
  (∀ t, t ∈ pre → Series t (download t) ∧ rows (download t) = []) →
  ∃ acc', merge_loop download acc pre = Ok acc' ∧ Pd.empty acc' = true ∧
          (∀ t, last pre = Some t → acc' = prepared download t).
Proof.
  induction pre as [|t pre IH]; intros acc Hacc H.
  { exists acc. by repeat split. }
  destruct (H t) as [Hser Hrows]; [left |].
  cbn [merge_loop]. unfold merge_step.
  rewrite (ticker_frame_Series download t Hser), Hacc.
  assert (Pd.empty (prepared download t) = true) as He.
  { unfold Pd.empty, prepared, prices, Pd.take_columns. cbn [columns rows].
    by rewrite Hrows. }
  destruct (IH (prepared download t) He) as (acc' & Hrun & He' & Hlast).
  { intros. apply H. by right. }
  exists acc'. split; [done |]. split; [done |].
  intros t'. rewrite last_cons. destruct (last pre) as [t2 |] eqn:E.
  - intros [= <-]. by apply Hlast.
  - intros [= <-]. apply last_None in E as ->. by injection Hrun as <-.
Qed.

(** X3: tickers whose download has no rows, supplied before the others,
    leave no trace: the merge gives what it gives without them, because
    the loop replaces the table built so far while that table is
    empty. *)
Theorem merge_forgets_leading_empty
    (download : string → DataFrame (string * string)) (pre rest : list string) :
  (∀ t, t ∈ pre → Series t (download t) ∧ rows (download t) = []) →
  rest ≠ [] →
  merge download (pre ++ rest) = merge download rest.
Proof.
  intros H Hne. unfold merge. rewrite merge_loop_app.
  destruct (merge_loop_empty_prefix download pre Pd.DataFrame0 eq_refl H)
    as (acc' & -> & He & _).
  by apply merge_loop_empty_acc.
Qed.

Lemma merge_forgets_leading_empty_scenario :
  merge scenario (["CCC"; "DDD"] ++ ["AAA"; "BBB"]) = merge scenario ["AAA"; "BBB"].
Proof.
  apply (merge_forgets_leading_empty scenario ["CCC"; "DDD"] ["AAA"; "BBB"]).
  - intros t Ht. split; [apply scenario_Series |].
    repeat (apply elem_of_cons in Ht as [-> | Ht]); [done .. |].
    by apply elem_of_nil in Ht.
  - discriminate.
Defined.

(** X4: when no download has rows, the merged table is the empty table
    of the last ticker alone: four columns, no rows, and nothing of the
    tickers before it. *)
Theorem merge_all_empty
    (download : string → DataFrame (string * string)) (tickers : list string)
    (t : string) :
  (∀ t', t' ∈ tickers → Series t' (download t') ∧ rows (download t') = []) →
  last tickers = Some t →
  merge download tickers
  = Ok {| columns := map (λ field, column_name (field, t) t) ohlc; rows := [] |}.
Proof.
  intros H Hlast. unfold merge.
  destruct (merge_loop_empty_prefix download tickers Pd.DataFrame0 eq_refl H)
    as (acc' & -> & _ & Hacc).
  rewrite (Hacc t Hlast). unfold prepared, prices, Pd.take_columns. cbn [rows].
  destruct (H t) as [_ ->]; [by apply last_Some_elem_of | done].
Qed.

Lemma merge_all_empty_scenario :
  merge scenario ["CCC"; "DDD"]
  = Ok {| columns := map (λ field, column_name (field, "DDD") "DDD") ohlc;
          rows := [] |}.
Proof.
  apply (merge_all_empty scenario ["CCC"; "DDD"] "DDD").
  - intros t Ht. split; [apply scenario_Series |].
    repeat (apply elem_of_cons in Ht as [-> | Ht]); [done .. |].
    by apply elem_of_nil in Ht.
  - reflexivity.
Defined.

(** X5: a ticker that comes a second time in the list makes the join
    raise [ValueError]: its columns are in the table already.  The loop
    ends there, whatever tickers follow. *)
Theorem merge_repeated_ticker
    (download : string → DataFrame (string * string)) (pre post : list string)
    (t : string) :
  NoDup pre →
  (∀ t', t' ∈ pre → Series t' (download t')) →
  (∀ t', head pre = Some t' → rows (download t') ≠ []) →
  t ∈ pre →
  merge download (pre ++ t :: post)
  = Raise (ValueError "columns overlap but no suffix specified").
Proof.
  intros Hnd Hser Hhd Ht. unfold merge. rewrite merge_loop_app.
  fold (merge download pre). rewrite merge_wide by done.
  cbn [merge_loop]. unfold merge_step.
  rewrite (ticker_frame_Series download t (Hser t Ht)).
  assert (Pd.empty (wide (map (prepared download) pre)) = false) as ->.
  { destruct pre as [|h tl]; [by apply elem_of_nil in Ht |].
    apply (wide_not_empty (prepared download h) [prepared download h]
             (map (prepared download) tl)); [apply stands_for_single |].
    apply empty_false. split; [done |]. cbn [prepared rows].
    specialize (Hhd h eq_refl). unfold prices, Pd.take_columns. cbn [rows].
    by destruct (rows (download h)). }
  unfold Pd.join_outer.
  assert (existsb (λ c, existsb (String.eqb c) (columns (prepared download t)))
            (columns (wide (map (prepared download) pre))) = true) as ->; [| done].
  apply existsb_exists. exists (column_name ("Open", t) t). split.
  - apply list_elem_of_In. cbn [wide columns].
    change (flat_map ?g ?l) with (l ≫= g). apply list_elem_of_bind.
    exists (prepared download t). split; [left |].
    apply list_elem_of_fmap. by exists t.
  - apply existsb_exists. exists (column_name ("Open", t) t).
    split; [left; done | apply String.eqb_refl].
Qed.

Lemma merge_repeated_ticker_scenario :
  merge scenario (["AAA"; "BBB"] ++ "AAA" :: ["CCC"])
  = Raise (ValueError "columns overlap but no suffix specified").
Proof.
  apply (merge_repeated_ticker scenario ["AAA"; "BBB"] ["CCC"] "AAA").
  - repeat constructor; set_solver.
  - intros t _. apply scenario_Series.
  - intros t [= <-]. done.
  - left.
Defined.

(** ** From the merge to the charts *)

Lemma flat_map_all_nil {A B} (g : A → list B) (l : list A) :
  (∀ y, y ∈ l → g y = []) → flat_map g l = [].
Proof.
  induction l as [|y l IH]; intros H; [done |]. cbn [flat_map].
  rewrite (H y) by left. apply IH. intros. apply H. by right.
Qed.

Lemma flat_map_select {A B} (g : A → list B) (l : list A) (x : A) :
  NoDup l → x ∈ l → (∀ y, y ∈ l → y ≠ x → g y = []) → flat_map g l = g x.
Proof.
  induction 1 as [|y l Hy Hnd IH]; intros Hx Hg; [by apply elem_of_nil in Hx |].
  cbn [flat_map]. apply elem_of_cons in Hx as [-> | Hx].
  - rewrite flat_map_all_nil, app_nil_r; [done |].
    intros z Hz. apply Hg; [by right |]. by intros ->.
  - rewrite (Hg y); [| left | by intros ->]. apply IH; [done |].
    intros z Hz. apply Hg. by right.
Qed.

Lemma cells_where_all {L A} (p : L → bool) (cols : list L) : ∀ r : list A,
  (∀ c, c ∈ cols → p c = true) → length r = length cols →
  Pd.cells_where p cols r = r.
Proof.
  induction cols as [|c cols IH]; intros [|x r] Hp Hlen; try done.
  cbn [Pd.cells_where]. rewrite (Hp c) by left. f_equal.
  apply IH; [| by injection Hlen]. intros. apply Hp. by right.
Qed.

(** The cells of a ticker in a row of the merged table are its own row,
    or its row of NaN. *)
Lemma ticker_cells_wide download tickers t d :
  NoDup tickers → t ∈ tickers →
  (∀ t', t' ∈ tickers → Series t' (download t') ∧ Py.contains sep t' = false) →
  Pd.cells_where (Py.endswith (String sep t))
    (flat_map columns (map (prepared download) tickers))
    (flat_map (λ f, Pd.row_or_nan f d) (map (prepared download) tickers))
  = Pd.row_or_nan (prepared download t) d.
Proof.
  intros Hnd Ht H. rewrite cells_where_flat_map.
  2:{ intros f [t' [-> Ht']]%list_elem_of_fmap. apply row_or_nan_width, H, Ht'. }
  rewrite flat_map_concat_map, map_map, <- flat_map_concat_map.
  rewrite (flat_map_select _ tickers t Hnd Ht).
  - apply cells_where_all; [| apply row_or_nan_width, H, Ht].
    intros c [f [_ ->]]%elem_of_prepared_columns. unfold column_name.
    rewrite endswith_sep_append by apply H, Ht. apply String.eqb_refl.
  - intros t' Ht' Hne. apply cells_where_none.
    intros c [f [_ ->]]%elem_of_prepared_columns. unfold column_name.
    rewrite endswith_sep_append by (apply H; done).
    apply String.eqb_neq. by intros ->.
Qed.

Lemma StronglySorted_list_filter {A} (R : A → A → Prop) (q : A → bool) (l : list A) :
  StronglySorted R l → StronglySorted R (List.filter q l).
Proof.
  induction 1 as [|x l Hl IH Hx]; [constructor |].
  cbn [List.filter]. destruct (q x); [| done]. constructor; [done |].
  apply Forall_forall. intros y Hy%list_elem_of_In%filter_In.
  destruct Hy as [Hy%list_elem_of_In _]. by eapply Forall_forall in Hx.
Qed.

Lemma filter_sorted_sublist (I D : list Z) :
  StronglySorted Z.lt I → StronglySorted Z.lt D → (∀ d, d ∈ I → d ∈ D) →
  List.filter (λ d, bool_decide (d ∈ I)) D = I.
Proof.
  intros HI HD Hsub. apply (StronglySorted_unique Z.le).
  - apply StronglySorted_lt_le, StronglySorted_list_filter, HD.
  - by apply StronglySorted_lt_le.
  - apply NoDup_Permutation.
    + apply StronglySorted_lt_NoDup, StronglySorted_list_filter, HD.
    + by apply StronglySorted_lt_NoDup.
    + intros d. rewrite list_elem_of_In, filter_In, <- list_elem_of_In,
        bool_decide_eq_true. naive_solver.
Qed.

Lemma forallb_replicate_NaN n :
  forallb (λ x, negb (Pd.isna x)) (replicate n NaN) = Nat.eqb n 0.
Proof. by destruct n. Qed.

Lemma filter_filter_ext {A} (p q : A → bool) (l : list A) :
  (∀ x, x ∈ l → p x = true → q x = true) →
  List.filter p l = List.filter p (List.filter q l).
Proof.
  intros H. induction l as [|x l IH]; [done |]. cbn [List.filter].
  destruct (p x) eqn:Hp.
  - rewrite (H x) by (done || left). cbn [List.filter]. rewrite Hp. f_equal.
    apply IH. intros. apply H; [by right | done].
  - destruct (q x); cbn [List.filter]; rewrite ?Hp; apply IH;
      intros; (apply H; [by right | done]).
Qed.

(** The rows of a ticker in the merged table that are complete are the
    complete rows of its own prices. *)
Lemma ticker_rows_wide download tickers t :
  NoDup tickers → t ∈ tickers →
  (∀ t', t' ∈ tickers → Series t' (download t') ∧ Py.contains sep t' = false) →
  ticker_rows (wide (map (prepared download) tickers)) t
  = List.filter (λ dr, forallb (λ x, negb (Pd.isna x)) dr.2)
      (rows (prices (download t))).
Proof.
  intros Hnd Ht H. set (fs := map (prepared download) tickers).
  set (R := Pd.row_or_nan (prepared download t)).
  set (ok := λ r : list cell, forallb (λ x, negb (Pd.isna x)) r).
  assert (ticker_rows (wide fs) t
          = map (λ d, (d, R d)) (List.filter (λ d, ok (R d)) (date_union fs))) as ->.
  { unfold ticker_rows, complete_rows, wide. cbn [columns rows].
    rewrite filter_map_comm, map_map. cbn [fst snd].
    rewrite (List.filter_ext_in _ (λ d, ok (R d))).
    - apply map_ext. intros d. f_equal. by apply ticker_cells_wide.
    - intros d _. cbn [snd]. unfold ok, R, fs. by rewrite ticker_cells_wide. }
  destruct (H t Ht) as [(_ & _ & _ & Hsorted) _].
  assert (StronglySorted Z.lt (Pd.index (prepared download t))) as Hs.
  { by rewrite index_prepared. }
  rewrite (filter_filter_ext _ (λ d, bool_decide (d ∈ Pd.index (prepared download t)))).
  2:{ intros d _ Hd. apply bool_decide_eq_true.
      destruct (decide (d ∈ Pd.index (prepared download t))) as [| Hn]; [done |].
      unfold ok, R in Hd. by rewrite (row_or_nan_absent _ _ Hn), forallb_replicate_NaN in Hd. }
  rewrite filter_sorted_sublist; [| done | apply date_union_sorted |].
  2:{ intros d Hd. apply elem_of_date_union.
      change (flat_map ?g ?l) with (l ≫= g). apply list_elem_of_bind.
      exists (prepared download t). split; [done |]. apply list_elem_of_fmap. by exists t. }
  rewrite <- (filter_map_comm (λ dr, ok dr.2) (λ d, (d, R d))). f_equal.
  etransitivity; [| apply (rows_by_loc _ (replicate 4 NaN) Hs)].
  apply map_ext. intros d. by rewrite app_nil_r.
Qed.

Lemma project_wide download tickers t :
  NoDup tickers → t ∈ tickers →
  (∀ t', t' ∈ tickers → Series t' (download t') ∧ Py.contains sep t' = false) →
  project (wide (map (prepared download) tickers)) t
  = Ok (Pd.dropna {| columns := ohlc; rows := rows (prices (download t)) |}).
Proof.
  intros Hnd Ht H. unfold project. rewrite project_as_names.
  2:{ cbn [wide columns]. apply prepared_columns_NoDup, Hnd. }
  rewrite ticker_columns_wide by (done || intros; by apply H).
  cbn [prepared columns ohlc map length Nat.eqb].
  by rewrite ticker_rows_wide.
Qed.



Section ChartExtras.

Variable mpf_plot : DataFrame string → string → option string → option exn.
Variable plt_show : DataFrame string → option exn.
Variable os_path_join : string → string → string.
Variable in_kernel : bool.

Lemma batch_wide download tickers ts k :
  NoDup tickers →
  (∀ t, t ∈ tickers → Series t (download t) ∧ Py.contains sep t = false) →
  (∀ t, t ∈ ts → t ∈ tickers) →
  batch_result (wide (map (prepared download) tickers)) ts = Ok tt ∧
  plot_calls (batch_events mpf_plot os_path_join k
                (wide (map (prepared download) tickers)) ts)
  = flat_map
      (λ t, let clean := Pd.dropna {| columns := ohlc;
                                      rows := rows (prices (download t)) |} in
            if Pd.empty clean then []
            else [MpfPlot (Pd.tail k clean) ("Candlestick Chart: " +:+ t)
                    (Some (os_path_join charts_dir (t +:+ ".png")))])
      ts.
Proof.
  intros Hnd H. induction ts as [|t ts IH]; intros Hts; [done |].
  destruct IH as [IHr IHe]; [intros; apply Hts; by right |].
  assert (t ∈ tickers) as Ht by (apply Hts; left).
  cbn [batch_result batch_events flat_map]. unfold chart_result, chart_events.
  rewrite (project_wide download tickers t Hnd Ht H), IHr.
  split; [done |]. rewrite plot_calls_app, IHe. f_equal. cbn zeta.
  destruct (Pd.empty _); [done |].
  unfold plot_calls. cbn [List.filter]. by destruct (mpf_plot _ _ _).
Qed.

(** X7: the notebook from the merge to the charts.  On the table merged
    from distinct tickers without the separator, for any list of tickers
    taken from the ones the extractor finds in that table, the batch
    function ends normally, and its calls of the plot are, in the order
    of the list, one for each ticker that has a complete row: the last
    [k] complete rows of that ticker's own downloaded prices, under the
    ticker's title and file name. *)
Theorem charts_of_merged_table
    (download : string → DataFrame (string * string)) (tickers ts : list string)
    (k df : nat) (w : world) (wt : DataFrame string) :
  NoDup tickers →
  (∀ t, t ∈ tickers → Series t (download t) ∧ Py.contains sep t = false) →
  (∀ t, head tickers = Some t → rows (download t) ≠ []) →
  merge download tickers = Ok wt →
  heap w !! df = Some wt →
  (∀ t, t ∈ ts → t ∈ extract_tickers (columns wt)) →
  ∃ w', generate_candlestick_charts_with mpf_plot os_path_join k df ts w = (Ok tt, w') ∧
        plot_calls (log w')
        = plot_calls (log w) ++
          flat_map
            (λ t, let clean := Pd.dropna {| columns := ohlc;
                                            rows := rows (prices (download t)) |} in
                  if Pd.empty clean then []
                  else [MpfPlot (Pd.tail k clean) ("Candlestick Chart: " +:+ t)
                          (Some (os_path_join charts_dir (t +:+ ".png")))])
            ts.
Proof.
  intros Hnd H Hhd Hm Hdf Hts.
  rewrite merge_wide in Hm by (done || intros; by apply H). injection Hm as <-.
  assert (∀ t, t ∈ ts → t ∈ tickers) as Hts'.
  { intros t Ht%Hts. cbn [wide columns] in Ht.
    rewrite extract_tickers_prepared in Ht by (intros; by apply H).
    by apply elem_of_list_to_set in Ht. }
  destruct (batch_wide download tickers ts k Hnd H Hts') as [Hr He].
  destruct (generate_candlestick_charts_run mpf_plot os_path_join k df _ ts w Hdf)
    as (w' & Hrun & Hlog & _).
  exists w'. rewrite Hrun, Hr. split; [done |].
  rewrite Hlog, plot_calls_app. f_equal.
  change (?x :: ?l) with ([x] ++ l). by rewrite plot_calls_app, He.
Qed.

Lemma project_as_Ok names d t clean :
  project_as names d t = Ok clean →
  columns clean = names ∧
  Forall (λ dr, forallb (λ x, negb (Pd.isna x)) dr.2 = true) (rows clean).
Proof.
  unfold project_as, Pd.set_columns.
  destruct (Pd.getitem _ d) as [sel |]; [| done].
  destruct (Nat.eqb _ _); [| done]. intros [= <-]. split; [done |].
  cbn [Pd.dropna rows]. apply Forall_forall.
  by intros dr [_ ?]%list_elem_of_In%filter_In.
Qed.

Lemma tail_rows {L} (k : nat) (clean : DataFrame L) (P : Date * list cell → Prop) :
  (0 < k)%nat → Pd.empty clean = false → Forall P (rows clean) →
  columns (Pd.tail k clean) = columns clean ∧
  rows (Pd.tail k clean) ≠ [] ∧
  (length (rows (Pd.tail k clean)) ≤ k)%nat ∧
  Forall P (rows (Pd.tail k clean)).
Proof.
  intros Hk [_ Hne]%empty_false HP. cbn [Pd.tail columns rows].
  split; [done |]. split; [| split].
  - intros E%(f_equal length). rewrite length_drop in E.
    destruct (rows clean); [done |]. cbn [length] in E. lia.
  - rewrite length_drop. lia.
  - by apply Forall_drop.
Qed.

Lemma not_lt_4_take (n : nat) : (n <? 4)%nat = false → take n ohlc = ohlc.
Proof. intros Hn%Nat.ltb_ge. apply take_ge. cbn. lia. Qed.

Lemma plot_calls_printed (evs : list event) :
  Forall (λ ev, ∀ data title savefig, ev ≠ MpfPlot data title savefig) evs →
  plot_calls evs = [].
Proof.
  induction 1 as [|ev evs Hev _ IH]; [done |].
  unfold plot_calls in *. cbn [List.filter]. rewrite IH.
  destruct ev; try done. by destruct (Hev data title savefig).
Qed.

(** X8: a ticker for which more than four columns are selected, as when
    another ticker of the table ends in the separator and this ticker,
    makes the renaming fail with [ValueError] in both chart functions:
    four names are assigned to more than four columns, outside the
    [try].  The batch function ends with that error, plots nothing and
    does not reach the tickers that follow.  The guard of the handler
    lets the ticker through, it asks for four columns at least; the
    error comes up inside [with output:], so in a kernel the widget
    shows the traceback and the handler returns, elsewhere the error
    leaves the handler; the handler plots nothing either. *)
Theorem surplus_columns_raise (k df : nat) (t : string) (ts : list string)
    (w : world) (d : DataFrame string) :
  heap w !! df = Some d →
  NoDup (columns d) →
  (4 < length (ticker_columns d t))%nat →
  (∃ w', generate_candlestick_charts_with mpf_plot os_path_join k df (t :: ts) w
         = (Raise (ValueError "Length mismatch"), w') ∧
         plot_calls (log w') = plot_calls (log w)) ∧
  (∃ w', update_chart mpf_plot plt_show in_kernel df t w
         = (if in_kernel then Ok tt else Raise (ValueError "Length mismatch"), w') ∧
         log w' = log w ++
                  [ClearOutput; Printed ("Generating chart for " +:+ t +:+ "...")] ++
                  (if in_kernel then [ShowTraceback (ValueError "Length mismatch")]
                   else [])).
Proof.
  intros Hdf Hnd Hn. split.
  - destruct (generate_candlestick_charts_run mpf_plot os_path_join k df d (t :: ts) w Hdf)
      as (w' & Hrun & Hlog & _).
    exists w'. rewrite Hrun, Hlog. cbn [batch_result batch_events].
    unfold chart_result, chart_events, project. rewrite project_as_names by done.
    destruct (Nat.eqb_spec (length ohlc) (length (ticker_columns d t))) as [E | _].
    { cbn in E. lia. }
    split; [done |]. rewrite plot_calls_app, (plot_calls_printed (_ :: _)), app_nil_r; [done |].
    repeat constructor; done.
  - destruct (update_chart_run mpf_plot plt_show in_kernel df t w d Hdf)
      as (w' & Hrun & Hlog & _).
    exists w'. rewrite Hrun, Hlog. unfold update_result, update_events, project_selected.
    assert ((length (ticker_columns d t) <? 4)%nat = false) as Hlt by (apply Nat.ltb_ge; lia).
    rewrite Hlt, (not_lt_4_take _ Hlt), project_as_names by done.
    destruct (Nat.eqb_spec (length ohlc) (length (ticker_columns d t))) as [E | _].
    { cbn in E. lia. }
    done.
Qed.

Lemma batch_result_raise d pre t post e :
  project d t = Raise e → ∃ e', batch_result d (pre ++ t :: post) = Raise e'.
Proof.
  intros He. induction pre as [|x pre IH]; cbn [app batch_result].
  - unfold chart_result. rewrite He. by exists e.
  - destruct (chart_result d x) as [[] | e1]; [done | by exists e1].
Qed.

(** X9: the batch loop has no handler around the selection of the
    columns: at the first ticker whose projection raises, the loop ends
    with that error, and the tickers that follow it in the list have no
    effect at all, neither on the result nor on what is printed, plotted
    or stored. *)
Theorem batch_stops_at_first_error (k df : nat) (pre post : list string) (t : string)
    (w : world) (d : DataFrame string) (e : exn) :
  heap w !! df = Some d →
  project d t = Raise e →
  for_each (chart_ticker mpf_plot os_path_join k df) (pre ++ t :: post) w
  = for_each (chart_ticker mpf_plot os_path_join k df) (pre ++ [t]) w ∧
  ∃ e', (generate_candlestick_charts_with mpf_plot os_path_join k df
           (pre ++ t :: post) w).1 = Raise e'.
Proof.
  intros Hdf He. split.
  - revert w Hdf. induction pre as [|x pre IH]; intros w Hdf.
    + destruct (chart_ticker_run mpf_plot os_path_join k df t w d Hdf)
        as (w1 & Hrun & _).
      cbn [app for_each]. unfold mbind, M_bind. rewrite Hrun.
      unfold chart_result. by rewrite He.
    + destruct (chart_ticker_run mpf_plot os_path_join k df x w d Hdf)
        as (w1 & Hrun & _ & Hfr).
      cbn [app for_each]. unfold mbind, M_bind. rewrite Hrun.
      destruct (chart_result d x) as [[] | e1]; [| done].
      apply IH, Hfr, Hdf.
  - destruct (generate_candlestick_charts_run mpf_plot os_path_join k df d
                (pre ++ t :: post) w Hdf) as (w' & -> & _).
    apply (batch_result_raise d pre t post e He).
Qed.

Lemma chart_events_clean k d t data title savefig :
  (0 < k)%nat →
  MpfPlot data title savefig ∈ chart_events mpf_plot os_path_join k d t →
  (columns data = ohlc ∧ rows data ≠ [] ∧
   Forall (λ dr, forallb (λ x, negb (Pd.isna x)) dr.2 = true) (rows data)) ∧
  (length (rows data) ≤ k)%nat.
Proof.
  intros Hk. unfold chart_events, project.
  intros [E | Hin]%elem_of_cons; [discriminate E |].
  destruct (project_as ohlc d t) as [clean |] eqn:Hp; [| by apply elem_of_nil in Hin].
  destruct (Pd.empty clean) eqn:He.
  { apply elem_of_cons in Hin as [E | Hin]; [discriminate E | by apply elem_of_nil in Hin]. }
  cbn zeta in Hin. apply elem_of_cons in Hin as [E | Hin].
  - injection E as -> _ _. destruct (project_as_Ok _ _ _ _ Hp) as [Hc Hr].
    destruct (tail_rows k clean _ Hk He Hr) as (Hc' & Hne & Hlen & HP).
    by rewrite Hc', Hc.
  - apply elem_of_cons in Hin as [E | Hin]; [| by apply elem_of_nil in Hin].
    by destruct (mpf_plot _ _ _).
Qed.

Lemma batch_events_clean k d ts data title savefig :
  (0 < k)%nat →
  MpfPlot data title savefig ∈ batch_events mpf_plot os_path_join k d ts →
  (columns data = ohlc ∧ rows data ≠ [] ∧
   Forall (λ dr, forallb (λ x, negb (Pd.isna x)) dr.2 = true) (rows data)) ∧
  (length (rows data) ≤ k)%nat.
Proof.
  intros Hk. induction ts as [|t ts IH]; cbn [batch_events].
  { by intros ?%elem_of_nil. }
  intros [Hin | Hin]%elem_of_app; [by eapply chart_events_clean |].
  destruct (chart_result d t); [by apply IH | by apply elem_of_nil in Hin].
Qed.

Lemma update_events_plot d t data title savefig :
  MpfPlot data title savefig ∈ update_events mpf_plot plt_show in_kernel d t →
  (length (ticker_columns d t) <? 4)%nat = false ∧
  project d t = Ok data ∧ Pd.empty data = false ∧
  title = "Candlestick Chart: " +:+ t ∧ savefig = None.
Proof.
  unfold update_events, project_selected, project.
  intros [E | Hin]%elem_of_cons; [discriminate E |].
  apply elem_of_cons in Hin as [E | Hin]; [discriminate E |].
  destruct (_ <? 4)%nat eqn:Hlt.
  { apply elem_of_cons in Hin as [E | Hin]; [discriminate E | by apply elem_of_nil in Hin]. }
  rewrite (not_lt_4_take _ Hlt) in Hin.
  destruct (project_as ohlc d t) as [clean |].
  2:{ destruct in_kernel; [| by apply elem_of_nil in Hin].
      apply elem_of_cons in Hin as [E | Hin]; [discriminate E | by apply elem_of_nil in Hin]. }
  destruct (Pd.empty clean) eqn:He.
  { apply elem_of_cons in Hin as [E | Hin]; [discriminate E | by apply elem_of_nil in Hin]. }
  cbn zeta in Hin. apply elem_of_cons in Hin as [E | Hin].
  { by injection E as -> -> ->. }
  destruct (mpf_plot _ _ _).
  { apply elem_of_cons in Hin as [E | Hin]; [discriminate E | by apply elem_of_nil in Hin]. }
  apply elem_of_cons in Hin as [E | Hin]; [discriminate E |].
  destruct (plt_show _); [| by apply elem_of_nil in Hin].
  apply elem_of_cons in Hin as [E | Hin]; [discriminate E | by apply elem_of_nil in Hin].
Qed.

(** X10: whatever table [df] refers to and whatever tickers are asked
    for, every table that either chart function hands to the plot has
    the four columns Open, High, Low, Close, at least one row, and no
    missing value; the batch function hands over 500 rows at most. *)
Theorem plotted_tables_are_clean (df : nat) (ts : list string) (t : string)
    (w : world) (d : DataFrame string) :
  heap w !! df = Some d →
  ∃ batch_evs update_evs,
    log (generate_candlestick_charts mpf_plot os_path_join df ts w).2
    = log w ++ batch_evs ∧
    log (update_chart mpf_plot plt_show in_kernel df t w).2 = log w ++ update_evs ∧
    (∀ data title savefig,
       MpfPlot data title savefig ∈ batch_evs ++ update_evs →
       columns data = ohlc ∧ rows data ≠ [] ∧
       Forall (λ dr, forallb (λ x, negb (Pd.isna x)) dr.2 = true) (rows data)) ∧
    (∀ data title savefig,
       MpfPlot data title savefig ∈ batch_evs → (length (rows data) ≤ 500)%nat).
Proof.
  intros Hdf. unfold generate_candlestick_charts.
  destruct (generate_candlestick_charts_run mpf_plot os_path_join 500 df d ts w Hdf)
    as (w1 & Hrun1 & Hlog1 & _).
  destruct (update_chart_run mpf_plot plt_show in_kernel df t w d Hdf) as (w2 & Hrun2 & Hlog2 & _).
  rewrite Hrun1, Hrun2. cbn [snd].
  eexists _, _. split; [exact Hlog1 |]. split; [exact Hlog2 |].
  assert (∀ data title savefig,
            MpfPlot data title savefig
            ∈ Printed ("Generating charts for " +:+ str_nat (length ts) +:+ " tickers...")
              :: batch_events mpf_plot os_path_join 500 d ts →
            MpfPlot data title savefig ∈ batch_events mpf_plot os_path_join 500 d ts) as Hb.
  { by intros data title savefig [E | Hin]%elem_of_cons. }
  split.
  - intros data title savefig [Hin%Hb | Hin]%elem_of_app.
    + eapply batch_events_clean; [| done]. lia.
    + apply update_events_plot in Hin as (_ & Hp & He & _).
      destruct (project_as_Ok _ _ _ _ Hp) as [Hc Hr].
      apply empty_false in He as [_ He]. done.
  - intros data title savefig Hin%Hb.
    eapply batch_events_clean; [| done]. lia.
Qed.

(** X13: the two chart functions draw from the same cleaned table: when
    the handler of the dropdown plots a table for a ticker, an iteration
    of the batch function for that ticker on the same [df] plots the last
    [k] rows of that very table, under the same title, into the file of
    the ticker. *)
Theorem batch_plots_tail_of_selected (k df : nat) (t : string) (w : world)
    (d : DataFrame string) :
  heap w !! df = Some d →
  ∃ update_evs batch_evs,
    log (update_chart mpf_plot plt_show in_kernel df t w).2 = log w ++ update_evs ∧
    log (chart_ticker mpf_plot os_path_join k df t w).2 = log w ++ batch_evs ∧
    ∀ data title savefig,
      MpfPlot data title savefig ∈ update_evs →
      MpfPlot (Pd.tail k data) title (Some (os_path_join charts_dir (t +:+ ".png")))
      ∈ batch_evs.
Proof.
  intros Hdf.
  destruct (update_chart_run mpf_plot plt_show in_kernel df t w d Hdf) as (w1 & Hrun1 & Hlog1 & _).
  destruct (chart_ticker_run mpf_plot os_path_join k df t w d Hdf)
    as (w2 & Hrun2 & Hlog2 & _).
  rewrite Hrun1, Hrun2. cbn [snd].
  eexists _, _. split; [exact Hlog1 |]. split; [exact Hlog2 |].
  intros data title savefig (_ & Hp & He & -> & _)%update_events_plot.
  unfold chart_events. rewrite Hp, He. cbn zeta. right. left.
Qed.

End ChartExtras.

(** ** The tickers read back from the table *)

Section ExtractFacts.

#[local] Arguments String.append !_ _ / : simpl nomatch.

Lemma endswith_refl p : Py.endswith p p = true.
Proof. destruct p; cbn [Py.endswith]; by rewrite String.eqb_refl. Qed.

Lemma endswith_append p a : Py.endswith p (a +:+ p) = true.
Proof.
  induction a as [|x a IH]; [apply endswith_refl |].
  cbn [String.append Py.endswith]. by rewrite IH, orb_true_r.
Qed.

(** A column named for a ticker ends in the separator and the last piece
    of the ticker. *)
Lemma endswith_ticker_of a t :
  Py.endswith (String sep (ticker_of t)) (a +:+ String sep t) = true.
Proof.
  destruct (ticker_of_suffix t) as [_ (pre & Ht & [-> | [p ->]])].
  - simpl in Ht. rewrite <- Ht. apply endswith_append.
  - remember (ticker_of t) as k eqn:Hk.
    assert (a +:+ String sep t = (a +:+ String sep p) +:+ String sep k) as ->.
    { rewrite Ht, !append_assoc. by simpl. }
    apply endswith_append.
Qed.

End ExtractFacts.

Lemma length_filter_flat_map {A B} (p : B → bool) (g : A → list B) (l : list A) x :
  x ∈ l → (length (List.filter p (g x)) ≤ length (List.filter p (flat_map g l)))%nat.
Proof.
  induction l as [|y l IH]; [by intros ?%elem_of_nil |].
  cbn [flat_map]. rewrite List.filter_app, length_app.
  intros [-> | Hx%IH]%elem_of_cons; lia.
Qed.

Lemma filter_all {A} (p : A → bool) (l : list A) :
  (∀ x, x ∈ l → p x = true) → List.filter p l = l.
Proof.
  induction l as [|x l IH]; intros H; [done |]. cbn [List.filter].
  rewrite (H x) by left. f_equal. apply IH. intros. apply H. by right.
Qed.

(** X11: every ticker the extractor reads from a merged table selects
    four columns of that table at least, whatever characters the tickers
    hold: the columns it was read from end in the separator and that
    ticker.  So for the tickers that the dropdown offers, the handler
    never answers that columns are missing. *)
Theorem extracted_ticker_selects_columns
    (download : string → DataFrame (string * string)) (tickers : list string) :
  NoDup tickers →
  (∀ t, t ∈ tickers → Series t (download t)) →
  (∀ t, head tickers = Some t → rows (download t) ≠ []) →
  ∃ wt, merge download tickers = Ok wt ∧
        ∀ t, t ∈ extract_tickers (columns wt) →
             (4 ≤ length (ticker_columns wt t))%nat ∧
             (length (ticker_columns wt t) <? 4)%nat = false.
Proof.
  intros Hnd Hser Hhd. exists (wide (map (prepared download) tickers)).
  split; [by apply merge_wide |].
  intros t' Ht'. cbn [wide columns] in Ht'. unfold extract_tickers in Ht'.
  apply elem_of_list_to_set, list_elem_of_fmap in Ht' as (c & -> & Hc).
  apply list_elem_of_In, filter_In in Hc as [Hc%list_elem_of_In _].
  change (flat_map ?g ?l) with (l ≫= g) in Hc.
  apply list_elem_of_bind in Hc as (f & Hcf & Hf).
  apply list_elem_of_fmap in Hf as (t & -> & Ht).
  apply elem_of_prepared_columns in Hcf as (fld & _ & ->).
  unfold column_name. rewrite !ticker_of_append.
  assert (4 ≤ length (ticker_columns (wide (map (prepared download) tickers))
                        (ticker_of t)))%nat as H4.
  { unfold ticker_columns. cbn [wide columns].
    etransitivity; [| apply (length_filter_flat_map _ columns _ (prepared download t))].
    - rewrite filter_all; [done |].
      intros c [fld' [_ ->]]%elem_of_prepared_columns. apply endswith_ticker_of.
    - apply list_elem_of_fmap. by exists t. }
  split; [done |]. apply Nat.ltb_ge, H4.
Qed.

Lemma extracted_ticker_selects_columns_clash :
  ∃ wt, merge clash ["A"; "B_A"] = Ok wt ∧
        ∀ t, t ∈ extract_tickers (columns wt) →
             (4 ≤ length (ticker_columns wt t))%nat ∧
             (length (ticker_columns wt t) <? 4)%nat = false.
Proof.
  apply (extracted_ticker_selects_columns clash ["A"; "B_A"]).
  - repeat constructor; set_solver.
  - intros t _. apply clash_Series.
  - intros t [= <-]. done.
Defined.

(** X12: the extractor reads tickers only from the columns that start
    with an opening parenthesis: it finds no ticker at all exactly when
    no column starts so, as in a table whose columns have plain names
    such as Open_AAA or Date. *)
Theorem extract_tickers_empty (cols : list string) :
  extract_tickers cols = ∅ ↔ ∀ c, c ∈ cols → Py.startswith "(" c = false.
Proof.
  unfold extract_tickers. split.
  - intros E c Hc. destruct (Py.startswith "(" c) eqn:Hs; [| done].
    assert (ticker_of c ∈ (∅ : gset string)) as H; [| by apply elem_of_empty in H].
    rewrite <- E. apply elem_of_list_to_set, list_elem_of_fmap. exists c.
    split; [done |]. apply list_elem_of_In, filter_In. by rewrite <- list_elem_of_In.
  - intros H. rewrite filter_none; [done |].
    apply forallb_forall. intros c Hc%list_elem_of_In. by rewrite (H c Hc).
Qed.

(** ** The further properties on the example tables *)

Lemma clash_table_columns : NoDup (columns clash_table).
Proof. apply (bool_decide_unpack _). by vm_compute. Qed.

Lemma charts_of_merged_table_scenario :
  ∃ w', generate_candlestick_charts_with plot_fine posix_join 2 0 ["BBB"; "CCC"; "AAA"]
          scenario_world = (Ok tt, w') ∧
        plot_calls (log w')
        = plot_calls (log scenario_world) ++
          flat_map
            (λ t, let clean := Pd.dropna {| columns := ohlc;
                                            rows := rows (prices (scenario t)) |} in
                  if Pd.empty clean then []
                  else [MpfPlot (Pd.tail 2 clean) ("Candlestick Chart: " +:+ t)
                          (Some (posix_join charts_dir (t +:+ ".png")))])
            ["BBB"; "CCC"; "AAA"].
Proof.
  apply (charts_of_merged_table plot_fine posix_join scenario ["AAA"; "CCC"; "BBB"]
           ["BBB"; "CCC"; "AAA"] 2 0 scenario_world scenario_table).
  - repeat constructor; set_solver.
  - intros t Ht. split; [apply scenario_Series |].
    repeat (apply elem_of_cons in Ht as [-> | Ht]); [done .. |].
    by apply elem_of_nil in Ht.
  - intros t [= <-]. done.
  - reflexivity.
  - reflexivity.
  - intros t Ht.
    repeat (apply elem_of_cons in Ht as [-> | Ht]);
      [apply (bool_decide_unpack _); by vm_compute .. |].
    by apply elem_of_nil in Ht.
Defined.

Lemma surplus_columns_raise_clash :
  (∃ w', generate_candlestick_charts_with plot_fine posix_join 500 0 ("A" :: ["B_A"])
           clash_world
         = (Raise (ValueError "Length mismatch"), w') ∧
         plot_calls (log w') = plot_calls (log clash_world)) ∧
  (∃ w', update_chart plot_fine show_fine true 0 "A" clash_world
         = (if true then Ok tt else Raise (ValueError "Length mismatch"), w') ∧
         log w' = log clash_world ++
                  [ClearOutput; Printed ("Generating chart for " +:+ "A" +:+ "...")] ++
                  (if true then [ShowTraceback (ValueError "Length mismatch")]
                   else [])).
Proof.
  apply (surplus_columns_raise plot_fine show_fine posix_join true 500 0 "A" ["B_A"]
           clash_world clash_table).
  - reflexivity.
  - apply clash_table_columns.
  - vm_compute. lia.
Defined.

Lemma batch_stops_at_first_error_partial :
  for_each (chart_ticker plot_fine posix_join 500 0) (["AAA"] ++ "XXX" :: ["AAA"; "AAA"])
    partial_world
  = for_each (chart_ticker plot_fine posix_join 500 0) (["AAA"] ++ ["XXX"]) partial_world ∧
  ∃ e', (generate_candlestick_charts_with plot_fine posix_join 500 0
           (["AAA"] ++ "XXX" :: ["AAA"; "AAA"]) partial_world).1 = Raise e'.
Proof.
  apply (batch_stops_at_first_error plot_fine posix_join 500 0 ["AAA"] ["AAA"; "AAA"]
           "XXX" partial_world partial_table (ValueError "Length mismatch")).
  - reflexivity.
  - by vm_compute.
Defined.

Lemma plotted_tables_are_clean_scenario :
  ∃ batch_evs update_evs,
    log (generate_candlestick_charts plot_fine posix_join 0 ["AAA"; "CCC"] scenario_world).2
    = log scenario_world ++ batch_evs ∧
    log (update_chart plot_fine show_fine true 0 "BBB" scenario_world).2
    = log scenario_world ++ update_evs ∧
    (∀ data title savefig,
       MpfPlot data title savefig ∈ batch_evs ++ update_evs →
       columns data = ohlc ∧ rows data ≠ [] ∧
       Forall (λ dr, forallb (λ x, negb (Pd.isna x)) dr.2 = true) (rows data)) ∧
    (∀ data title savefig,
       MpfPlot data title savefig ∈ batch_evs → (length (rows data) ≤ 500)%nat).
Proof.
  apply (plotted_tables_are_clean plot_fine show_fine posix_join true 0 ["AAA"; "CCC"] "BBB"
           scenario_world scenario_table).
  reflexivity.
Defined.

Lemma batch_plots_tail_of_selected_scenario :
  ∃ update_evs batch_evs,
    log (update_chart plot_fine show_fine true 0 "AAA" scenario_world).2
    = log scenario_world ++ update_evs ∧
    log (chart_ticker plot_fine posix_join 2 0 "AAA" scenario_world).2
    = log scenario_world ++ batch_evs ∧
    ∀ data title savefig,
      MpfPlot data title savefig ∈ update_evs →
      MpfPlot (Pd.tail 2 data) title (Some (posix_join charts_dir ("AAA" +:+ ".png")))
      ∈ batch_evs.
Proof.
  apply (batch_plots_tail_of_selected plot_fine show_fine posix_join true 2 0 "AAA"
           scenario_world scenario_table).
  reflexivity.
Defined.

(** ** The handler of the dropdown on a merged table *)

Section HandlerOnMerge.

Variable mpf_plot : DataFrame string → string → option string → option exn.
Variable plt_show : DataFrame string → option exn.
Variable in_kernel : bool.

(** X14: on the table merged from distinct tickers without the
    separator, the handler of the dropdown ends normally for every ticker
    the extractor finds in the table, and plots, when the ticker has a
    complete row, all the complete rows of the ticker's own downloaded
    prices, not only the last 500. *)
Theorem update_chart_of_merged_table
    (download : string → DataFrame (string * string)) (tickers : list string)
    (t : string) (df : nat) (w : world) (wt : DataFrame string) :
  NoDup tickers →
  (∀ t', t' ∈ tickers → Series t' (download t') ∧ Py.contains sep t' = false) →
  (∀ t', head tickers = Some t' → rows (download t') ≠ []) →
  merge download tickers = Ok wt →
  heap w !! df = Some wt →
  t ∈ extract_tickers (columns wt) →
  ∃ w', update_chart mpf_plot plt_show in_kernel df t w = (Ok tt, w') ∧
        plot_calls (log w')
        = plot_calls (log w) ++
          (let clean := Pd.dropna {| columns := ohlc;
                                     rows := rows (prices (download t)) |} in
           if Pd.empty clean then []
           else [MpfPlot clean ("Candlestick Chart: " +:+ t) None]).
Proof.
  intros Hnd H Hhd Hm Hdf Ht.
  rewrite merge_wide in Hm by (done || intros; by apply H). injection Hm as <-.
  cbn [wide columns] in Ht.
  rewrite extract_tickers_prepared in Ht by (intros; by apply H).
  apply elem_of_list_to_set in Ht.
  destruct (update_chart_run mpf_plot plt_show in_kernel df t w _ Hdf) as (w' & Hrun & Hlog & _).
  exists w'. rewrite Hrun, Hlog, plot_calls_app.
  unfold update_result, update_events, project_selected.
  rewrite ticker_columns_wide by (done || intros; by apply H).
  cbn [prepared columns ohlc map length Nat.ltb Nat.leb take].
  fold ohlc. fold (project (wide (map (prepared download) tickers)) t).
  rewrite (project_wide download tickers t Hnd Ht H).
  split; [done |]. f_equal. cbn zeta. unfold plot_calls. cbn [List.filter].
  destruct (Pd.empty _); [done |]. cbn [List.filter].
  destruct (mpf_plot _ _ _); [done |]. cbn [List.filter].
  by destruct (plt_show _).
Qed.

End HandlerOnMerge.

Lemma update_chart_of_merged_table_scenario :
  ∃ w', update_chart plot_fine show_fine true 0 "BBB" scenario_world = (Ok tt, w') ∧
        plot_calls (log w')
        = plot_calls (log scenario_world) ++
          (let clean := Pd.dropna {| columns := ohlc;
                                     rows := rows (prices (scenario "BBB")) |} in
           if Pd.empty clean then []
           else [MpfPlot clean ("Candlestick Chart: " +:+ "BBB") None]).
Proof.
  apply (update_chart_of_merged_table plot_fine show_fine true scenario ["AAA"; "CCC"; "BBB"]
           "BBB" 0 scenario_world scenario_table).
  - repeat constructor; set_solver.
  - intros t Ht. split; [apply scenario_Series |].
    repeat (apply elem_of_cons in Ht as [-> | Ht]); [done .. |].
    by apply elem_of_nil in Ht.
  - intros t [= <-]. done.
  - reflexivity.
  - reflexivity.
  - apply (bool_decide_unpack _). by vm_compute.
Defined.

(** ** A download without a price column *)

(** X15: the loop has no guard around the selection of the price
    columns: at a ticker whose download lacks one of Open, High, Low,
    Close, after tickers that merged well, the merge ends with
    [KeyError] for a price column the download lacks, whatever tickers
    follow. *)
Theorem merge_missing_price_column
    (download : string → DataFrame (string * string)) (pre post : list string)
    (t field : string) :
  NoDup pre →
  (∀ t', t' ∈ pre → Series t' (download t')) →
  (∀ t', head pre = Some t' → rows (download t') ≠ []) →
  field ∈ ohlc →
  existsb (Pd.level0_is field) (columns (download t)) = false →
  ∃ k, k ∈ ohlc ∧
       existsb (Pd.level0_is k) (columns (download t)) = false ∧
       merge download (pre ++ t :: post) = Raise (KeyError k).
Proof.
  intros Hnd Hser Hhd Hf Hmiss. unfold merge. rewrite merge_loop_app.
  fold (merge download pre). rewrite merge_wide by done.
  cbn [merge_loop]. unfold merge_step, ticker_frame, Pd.getitem_level0.
  destruct (List.find _ ohlc) as [k |] eqn:E.
  - apply find_some in E as [Hk Hk']. exists k.
    split; [by apply list_elem_of_In |]. split; [by apply negb_true_iff | done].
  - apply list_elem_of_In in Hf. apply (find_none _ _ E) in Hf.
    by rewrite Hmiss in Hf.
Qed.

Lemma merge_missing_price_column_absent :
  ∃ k, k ∈ ohlc ∧
       existsb (Pd.level0_is k) (columns (absent "CCC")) = false ∧
       merge absent (["AAA"] ++ "CCC" :: ["BBB"]) = Raise (KeyError k).
Proof.
  apply (merge_missing_price_column absent ["AAA"] ["BBB"] "CCC" "Close").
  - repeat constructor; set_solver.
  - intros t ->%list_elem_of_singleton. apply scenario_Series.
  - intros t [= <-]. done.
  - set_solver.
  - reflexivity.
Defined.
